(** * Real-time collaboration layer: socket handlers, Whiteboard and Chat models

    A shallow embedding of the Socket.IO handler module
    ([setupSocketHandlers]), of the methods of the [Whiteboard] and [Chat]
    Mongoose models it calls, and of the room registry the handlers emit
    through.

    Conventions of the embedding.
    - A JS string-valued payload field is an [option string]: [None] is
      [undefined]; the test [!x] of the source is [negb (truthy x)].  An
      event sent without any payload is [NoPayload]: the destructuring of
      [data] at the top of its listener throws.
    - [new Date()], [Date.now()] are one clock reading [now : nat] per handler
      run; [Math.random().toString(36).substr(2, 9)] is an input [rnd].
    - A Mongoose document is a record; a method mutates the in-memory copy
      and [save] validates it against the schema and writes it to the store.
    - A handler is a computation over the socket and the store that emits
      actions and may throw; [try_catch] is the [try { } catch { }] block. *)

From Stdlib Require Import ZArith Ascii String.
From stdpp Require Import base option list strings pretty gmap sets.

Local Open Scope string_scope.

(** ** Values shared by the models *)

Definition truthy (x : option string) : bool :=
  match x with
  | Some s => negb (bool_decide (s = ""))
  | None => false
  end.

Record User := mkUser {
  u_id : string;
  username : string;
  firstName : string;
  lastName : string;
  avatar : string;
  isActive : bool
}.

(** The two shapes under which a user is named in outbound payloads. *)
Inductive UserRef :=
  | UserBrief (id uname : string)
  | UserCard (id uname first last av : string).

Definition brief (u : User) : UserRef := UserBrief (u_id u) (username u).
Definition card (u : User) : UserRef :=
  UserCard (u_id u) (username u) (firstName u) (lastName u) (avatar u).

(** ** Whiteboard model (models/Whiteboard.js) *)

(** An element as a partial object: every schema field may be absent in what
    a client sends.  [e_extra] carries the remaining schema fields (size,
    style, rotation, zIndex, ...) as an object. *)
Record Element := mkElement {
  e_id : option string;
  e_type : option string;
  e_position : option (Z * Z);
  e_text : option string;
  e_createdBy : option string;
  e_createdAt : option nat;
  e_updatedAt : option nat;
  e_extra : gmap string string
}.

Record Collaborator := mkCollaborator {
  col_user : string;
  col_cursor : Z * Z;
  col_lastActive : nat
}.

Record Whiteboard := mkWhiteboard {
  elements : list Element;
  collaborators : list Collaborator;
  version : nat
}.

#[global] Instance Element_eq_dec : EqDecision Element.
Proof. solve_decision. Defined.

Definition element_types : list string :=
  ["text"; "shape"; "image"; "sticky-note"; "line"; "arrow"; "rectangle";
   "circle"; "triangle"].

(** Schema of an element subdocument: [id] and [type] required, [type] in the
    enum, [position.x] and [position.y] required. *)
Definition valid_element (e : Element) : bool :=
  truthy (e_id e) &&
  match e_type e with
  | Some t => bool_decide (t ∈ element_types)
  | None => false
  end &&
  bool_decide (is_Some (e_position e)).

(** [e.id === elementId] *)
Definition has_id (elementId : string) (e : Element) : Prop :=
  e_id e = Some elementId.

#[global] Instance has_id_dec elementId e : Decision (has_id elementId e).
Proof. unfold has_id. apply _. Defined.

Definition generated_element_id (now : nat) (rnd : string) : string :=
  "element_" +:+ pretty now +:+ "_" +:+ rnd.

(** [elementData.id || `element_${Date.now()}_${...}`] *)
Definition assigned_id (elementData : Element) (now : nat) (rnd : string)
    : option string :=
  if truthy (e_id elementData) then e_id elementData
  else Some (generated_element_id now rnd).

(** [{...elementData, id: ..., createdAt, updatedAt}] pushed onto
    [this.elements]. *)
Definition addElement (w : Whiteboard) (elementData : Element)
    (now : nat) (rnd : string) : Whiteboard :=
  let element :=
    {| e_id := assigned_id elementData now rnd;
       e_type := e_type elementData;
       e_position := e_position elementData;
       e_text := e_text elementData;
       e_createdBy := e_createdBy elementData;
       e_createdAt := Some now;
       e_updatedAt := Some now;
       e_extra := e_extra elementData |} in
  {| elements := elements w ++ [element];
     collaborators := collaborators w;
     version := version w |}.

(** [Object.assign(element, updates, { updatedAt: new Date() })] *)
Definition assign_element (element updates : Element) (now : nat) : Element :=
  {| e_id := e_id updates ∪ e_id element;
     e_type := e_type updates ∪ e_type element;
     e_position := e_position updates ∪ e_position element;
     e_text := e_text updates ∪ e_text element;
     e_createdBy := e_createdBy updates ∪ e_createdBy element;
     e_createdAt := e_createdAt updates ∪ e_createdAt element;
     e_updatedAt := Some now;
     e_extra := e_extra updates ∪ e_extra element |}.

(** [None] is [throw new Error('Element not found')]. *)
Definition updateElement (w : Whiteboard) (elementId : string)
    (updates : Element) (now : nat) : option Whiteboard :=
  match list_find (has_id elementId) (elements w) with
  | Some (i, element) =>
      Some {| elements := <[i := assign_element element updates now]> (elements w);
              collaborators := collaborators w;
              version := version w |}
  | None => None
  end.

Definition removeElement (w : Whiteboard) (elementId : string) : Whiteboard :=
  {| elements := filter (λ e, ¬ has_id elementId e) (elements w);
     collaborators := collaborators w;
     version := version w |}.

Definition is_user (userId : string) (c : Collaborator) : Prop :=
  col_user c = userId.

#[global] Instance is_user_dec userId c : Decision (is_user userId c).
Proof. unfold is_user. apply _. Defined.

Definition updateCollaboratorCursor (w : Whiteboard) (userId : string)
    (cursor : Z * Z) (now : nat) : Whiteboard :=
  let fresh := {| col_user := userId; col_cursor := cursor; col_lastActive := now |} in
  {| elements := elements w;
     collaborators :=
       match list_find (is_user userId) (collaborators w) with
       | Some (i, _) => <[i := fresh]> (collaborators w)
       | None => collaborators w ++ [fresh]
       end;
     version := version w |}.

Definition removeCollaborator (w : Whiteboard) (userId : string) : Whiteboard :=
  {| elements := elements w;
     collaborators := filter (λ c, ¬ is_user userId c) (collaborators w);
     version := version w |}.

(** [pre('save')]: the version is bumped when [elements] was modified, that
    is, when it differs from what the store holds. *)
Definition whiteboard_pre_save (stored doc : Whiteboard) : Whiteboard :=
  if decide (elements stored = elements doc) then doc
  else {| elements := elements doc;
          collaborators := collaborators doc;
          version := S (version doc) |}.

(** ** Chat model (Chat schema and methods) *)

Record Attachment := mkAttachment {
  filename : string;
  originalName : string;
  mimeType : string;
  size_bytes : nat;
  url : string
}.

Record ReadEntry := mkReadEntry {
  r_user : string;
  r_readAt : nat
}.

Record Participant := mkParticipant {
  p_user : string;
  p_role : string;
  p_lastRead : nat;
  p_isTyping : bool
}.

Record Message := mkMessage {
  m_id : string;
  m_sender : string;
  m_content : string;
  m_type : string;
  m_attachments : list Attachment;
  m_readBy : list ReadEntry;
  m_isEdited : bool;
  m_editedAt : option nat;
  m_isDeleted : bool;
  m_deletedAt : option nat;
  m_createdAt : nat
}.

(** What a caller of [addMessage] passes: [id] may be absent. *)
Record MessageData := mkMessageData {
  md_id : option string;
  md_content : string;
  md_type : string;
  md_attachments : list Attachment;
  md_sender : string
}.

(** The [updates] object of [updateMessage]: a partial message, in which any
    field of a message may be named ([None]: the key is absent).  A date field
    may be named with the value [null], hence the nested options. *)
Record MessageUpdates := mkMessageUpdates {
  mu_id : option string;
  mu_sender : option string;
  mu_content : option string;
  mu_type : option string;
  mu_attachments : option (list Attachment);
  mu_readBy : option (list ReadEntry);
  mu_isEdited : option bool;
  mu_editedAt : option (option nat);
  mu_isDeleted : option bool;
  mu_deletedAt : option (option nat);
  mu_createdAt : option nat
}.

(** An [updates] object that names no field. *)
Definition no_updates : MessageUpdates :=
  {| mu_id := None; mu_sender := None; mu_content := None; mu_type := None;
     mu_attachments := None; mu_readBy := None; mu_isEdited := None;
     mu_editedAt := None; mu_isDeleted := None; mu_deletedAt := None;
     mu_createdAt := None |}.

Record Chat := mkChat {
  participants : list Participant;
  messages : list Message;
  lastActivity : nat
}.

#[global] Instance Attachment_eq_dec : EqDecision Attachment.
Proof. solve_decision. Defined.

#[global] Instance ReadEntry_eq_dec : EqDecision ReadEntry.
Proof. solve_decision. Defined.

#[global] Instance Message_eq_dec : EqDecision Message.
Proof. solve_decision. Defined.

Definition message_types : list string := ["text"; "image"; "file"; "system"].

(** Schema of a message subdocument: [id], [sender], [content] required,
    [content] at most 2000 characters, [type] in the enum. *)
Definition valid_message (m : Message) : bool :=
  negb (bool_decide (m_id m = "")) &&
  negb (bool_decide (m_sender m = "")) &&
  negb (bool_decide (m_content m = "")) &&
  (String.length (m_content m) <=? 2000)%nat &&
  bool_decide (m_type m ∈ message_types).

Definition msg_has_id (messageId : string) (m : Message) : Prop :=
  m_id m = messageId.

#[global] Instance msg_has_id_dec messageId m : Decision (msg_has_id messageId m).
Proof. unfold msg_has_id. apply _. Defined.

Definition is_participant (userId : string) (p : Participant) : Prop :=
  p_user p = userId.

#[global] Instance is_participant_dec userId p : Decision (is_participant userId p).
Proof. unfold is_participant. apply _. Defined.

Definition generated_message_id (now : nat) (rnd : string) : string :=
  "msg_" +:+ pretty now +:+ "_" +:+ rnd.

(** [{...messageData, id: messageData.id || `msg_...`, createdAt: new Date()}];
    the fields the caller does not give take their schema defaults. *)
Definition new_message (messageData : MessageData) (now : nat) (rnd : string)
    : Message :=
  {| m_id := if truthy (md_id messageData) then default "" (md_id messageData)
             else generated_message_id now rnd;
     m_sender := md_sender messageData;
     m_content := md_content messageData;
     m_type := md_type messageData;
     m_attachments := md_attachments messageData;
     m_readBy := [];
     m_isEdited := false;
     m_editedAt := None;
     m_isDeleted := false;
     m_deletedAt := None;
     m_createdAt := now |}.

Definition addMessage (c : Chat) (messageData : MessageData)
    (now : nat) (rnd : string) : Chat :=
  {| participants := participants c;
     messages := messages c ++ [new_message messageData now rnd];
     lastActivity := lastActivity c |}.

(** [Object.assign(message, updates, { isEdited: true, editedAt: new Date() })]:
    every field named in [updates] replaces the message's, then the last
    source sets [isEdited] and [editedAt] over whatever [updates] gave. *)
Definition assign_message (m : Message) (updates : MessageUpdates) (now : nat)
    : Message :=
  let assigned :=
    {| m_id := default (m_id m) (mu_id updates);
       m_sender := default (m_sender m) (mu_sender updates);
       m_content := default (m_content m) (mu_content updates);
       m_type := default (m_type m) (mu_type updates);
       m_attachments := default (m_attachments m) (mu_attachments updates);
       m_readBy := default (m_readBy m) (mu_readBy updates);
       m_isEdited := default (m_isEdited m) (mu_isEdited updates);
       m_editedAt := default (m_editedAt m) (mu_editedAt updates);
       m_isDeleted := default (m_isDeleted m) (mu_isDeleted updates);
       m_deletedAt := default (m_deletedAt m) (mu_deletedAt updates);
       m_createdAt := default (m_createdAt m) (mu_createdAt updates) |} in
  {| m_id := m_id assigned;
     m_sender := m_sender assigned;
     m_content := m_content assigned;
     m_type := m_type assigned;
     m_attachments := m_attachments assigned;
     m_readBy := m_readBy assigned;
     m_isEdited := true;
     m_editedAt := Some now;
     m_isDeleted := m_isDeleted assigned;
     m_deletedAt := m_deletedAt assigned;
     m_createdAt := m_createdAt assigned |}.

(** [None] is [throw new Error('Message not found')]. *)
Definition updateMessage (c : Chat) (messageId : string)
    (updates : MessageUpdates) (now : nat) : option Chat :=
  match list_find (msg_has_id messageId) (messages c) with
  | Some (i, message) =>
      Some {| participants := participants c;
              messages := <[i := assign_message message updates now]> (messages c);
              lastActivity := lastActivity c |}
  | None => None
  end.

Definition mark_deleted (m : Message) (now : nat) : Message :=
  {| m_id := m_id m;
     m_sender := m_sender m;
     m_content := m_content m;
     m_type := m_type m;
     m_attachments := m_attachments m;
     m_readBy := m_readBy m;
     m_isEdited := m_isEdited m;
     m_editedAt := m_editedAt m;
     m_isDeleted := true;
     m_deletedAt := Some now;
     m_createdAt := m_createdAt m |}.

Definition deleteMessage (c : Chat) (messageId : string) (now : nat)
    : option Chat :=
  match list_find (msg_has_id messageId) (messages c) with
  | Some (i, message) =>
      Some {| participants := participants c;
              messages := <[i := mark_deleted message now]> (messages c);
              lastActivity := lastActivity c |}
  | None => None
  end.

Definition push_read (m : Message) (userId : string) (now : nat) : Message :=
  {| m_id := m_id m;
     m_sender := m_sender m;
     m_content := m_content m;
     m_type := m_type m;
     m_attachments := m_attachments m;
     m_readBy :=
       if bool_decide (Exists (λ r, r_user r = userId) (m_readBy m))
       then m_readBy m
       else m_readBy m ++ [{| r_user := userId; r_readAt := now |}];
     m_isEdited := m_isEdited m;
     m_editedAt := m_editedAt m;
     m_isDeleted := m_isDeleted m;
     m_deletedAt := m_deletedAt m;
     m_createdAt := m_createdAt m |}.

Definition set_lastRead (p : Participant) (now : nat) : Participant :=
  {| p_user := p_user p; p_role := p_role p;
     p_lastRead := now; p_isTyping := p_isTyping p |}.

Definition set_isTyping (p : Participant) (isTyping : bool) : Participant :=
  {| p_user := p_user p; p_role := p_role p;
     p_lastRead := p_lastRead p; p_isTyping := isTyping |}.

(** [None] is [throw new Error('User not found in chat')]. *)
Definition markAsRead (c : Chat) (userId : string) (messageId : option string)
    (now : nat) : option Chat :=
  match list_find (is_participant userId) (participants c) with
  | Some (i, participant) =>
      let msgs :=
        if truthy messageId then
          match list_find (msg_has_id (default "" messageId)) (messages c) with
          | Some (j, message) => <[j := push_read message userId now]> (messages c)
          | None => messages c
          end
        else messages c in
      Some {| participants := <[i := set_lastRead participant now]> (participants c);
              messages := msgs;
              lastActivity := lastActivity c |}
  | None => None
  end.

(** [None] is [throw new Error('User not found in chat')]. *)
Definition updateTypingStatus (c : Chat) (userId : string) (isTyping : bool)
    : option Chat :=
  match list_find (is_participant userId) (participants c) with
  | Some (i, participant) =>
      Some {| participants := <[i := set_isTyping participant isTyping]> (participants c);
              messages := messages c;
              lastActivity := lastActivity c |}
  | None => None
  end.

(** [pre('save')]: [lastActivity] is refreshed when [messages] was modified,
    that is, when it differs from what the store holds. *)
Definition chat_pre_save (stored doc : Chat) (now : nat) : Chat :=
  if decide (messages stored = messages doc) then doc
  else {| participants := participants doc;
          messages := messages doc;
          lastActivity := now |}.

(** ** Store, sockets and the outbound event catalogue *)

Record Store := mkStore {
  users : gmap string User;
  whiteboards : gmap string Whiteboard;
  chats : gmap string Chat
}.

(** The per-connection object the handlers close over. *)
Record Socket := mkSocket {
  s_user : User;
  s_rooms : gset string;
  s_projectId : option string;
  s_whiteboardId : option string;
  s_chatId : option string
}.

Inductive OutEvent :=
  | EvError (message : string)
  | UserJoinedProject (user : UserRef) (timestamp : nat)
  | UserLeftProject (user : UserRef) (timestamp : nat)
  | WhiteboardState (whiteboard : Whiteboard) (collabs : list Collaborator)
  | UserJoinedWhiteboard (user : UserRef)
  | UserLeftWhiteboard (user : UserRef)
  | WhiteboardElementAdded (element : Element) (user : UserRef)
  | WhiteboardElementUpdated (elementId : string) (updates : Element) (user : UserRef)
  | WhiteboardElementRemoved (elementId : string) (user : UserRef)
  | WhiteboardCursorUpdated (user : UserRef) (cursor : Z * Z)
  | ChatHistory (chat : Chat) (msgs : list Message)
  | UserJoinedChat (user : UserRef)
  | ChatMessageReceived (message : Message) (sender : UserRef)
  | UserTyping (user : UserRef) (isTyping : bool)
  | MessageRead (messageId : option string) (user : UserRef) (readAt : nat)
  | UserPresenceChanged (user : UserRef) (status : option string) (timestamp : nat).

Definition event_name (ev : OutEvent) : string :=
  match ev with
  | EvError _ => "error"
  | UserJoinedProject _ _ => "user-joined-project"
  | UserLeftProject _ _ => "user-left-project"
  | WhiteboardState _ _ => "whiteboard-state"
  | UserJoinedWhiteboard _ => "user-joined-whiteboard"
  | UserLeftWhiteboard _ => "user-left-whiteboard"
  | WhiteboardElementAdded _ _ => "whiteboard-element-added"
  | WhiteboardElementUpdated _ _ _ => "whiteboard-element-updated"
  | WhiteboardElementRemoved _ _ => "whiteboard-element-removed"
  | WhiteboardCursorUpdated _ _ => "whiteboard-cursor-updated"
  | ChatHistory _ _ => "chat-history"
  | UserJoinedChat _ => "user-joined-chat"
  | ChatMessageReceived _ _ => "chat-message-received"
  | UserTyping _ _ => "user-typing"
  | MessageRead _ _ _ => "message-read"
  | UserPresenceChanged _ _ _ => "user-presence-changed"
  end.

(** What a handler does to the outside: [socket.emit], [socket.to(room).emit],
    [io.to(room).emit] and [console.error]. *)
Inductive Action :=
  | EmitSelf (ev : OutEvent)
  | ToRoomExcl (room : string) (ev : OutEvent)
  | ToRoomAll (room : string) (ev : OutEvent)
  | ConsoleError (label : string) (err : string).

(** ** Handler computations *)

Record Ctx := mkCtx {
  ctx_sock : Socket;
  ctx_db : Store
}.

Inductive Res (A : Type) :=
  | Done (a : A)
  | Raised (err : string).
Arguments Done {A} a.
Arguments Raised {A} err.

Definition M (A : Type) : Type := Ctx → Ctx * list Action * Res A.

Definition pass {A} (a : A) : M A := λ c, (c, [], Done a).

Definition bindM {A B} (m : M A) (k : A → M B) : M B :=
  λ c, match m c with
       | (c1, out1, Done a) =>
           match k a c1 with
           | (c2, out2, r) => (c2, (out1 ++ out2)%list, r)
           end
       | (c1, out1, Raised err) => (c1, out1, Raised err)
       end.

#[global] Instance M_ret : MRet M := @pass.
#[global] Instance M_bind : MBind M := λ A B k m, bindM m k.

Definition throw {A} (err : string) : M A := λ c, (c, [], Raised err).

(** [try { body } catch (error) { handler(error) }] *)
Definition try_catch (body : M unit) (handler : string → M unit) : M unit :=
  λ c, match body c with
       | (c1, out1, Done a) => (c1, out1, Done a)
       | (c1, out1, Raised err) =>
           match handler err c1 with
           | (c2, out2, r) => (c2, (out1 ++ out2)%list, r)
           end
       end.

Definition act (a : Action) : M unit := λ c, (c, [a], Done tt).

Definition socket_emit (ev : OutEvent) : M unit := act (EmitSelf ev).
Definition socket_to (room : string) (ev : OutEvent) : M unit := act (ToRoomExcl room ev).
Definition io_to (room : string) (ev : OutEvent) : M unit := act (ToRoomAll room ev).
Definition console_error (label err : string) : M unit := act (ConsoleError label err).

Definition socket_user : M User := λ c, (c, [], Done (s_user (ctx_sock c))).
Definition socket_get : M Socket := λ c, (c, [], Done (ctx_sock c)).

Definition modify_socket (f : Socket → Socket) : M unit :=
  λ c, ({| ctx_sock := f (ctx_sock c); ctx_db := ctx_db c |}, [], Done tt).

Definition socket_join (room : string) : M unit :=
  modify_socket (λ s, {| s_user := s_user s; s_rooms := s_rooms s ∪ {[room]};
                         s_projectId := s_projectId s;
                         s_whiteboardId := s_whiteboardId s;
                         s_chatId := s_chatId s |}).

Definition socket_leave (room : string) : M unit :=
  modify_socket (λ s, {| s_user := s_user s; s_rooms := s_rooms s ∖ {[room]};
                         s_projectId := s_projectId s;
                         s_whiteboardId := s_whiteboardId s;
                         s_chatId := s_chatId s |}).

Definition set_projectId (v : option string) : M unit :=
  modify_socket (λ s, {| s_user := s_user s; s_rooms := s_rooms s;
                         s_projectId := v;
                         s_whiteboardId := s_whiteboardId s;
                         s_chatId := s_chatId s |}).

Definition set_whiteboardId (v : option string) : M unit :=
  modify_socket (λ s, {| s_user := s_user s; s_rooms := s_rooms s;
                         s_projectId := s_projectId s;
                         s_whiteboardId := v;
                         s_chatId := s_chatId s |}).

Definition set_chatId (v : option string) : M unit :=
  modify_socket (λ s, {| s_user := s_user s; s_rooms := s_rooms s;
                         s_projectId := s_projectId s;
                         s_whiteboardId := s_whiteboardId s;
                         s_chatId := v |}).

(** Room names, as the template literals of the source build them. *)
Definition user_room (userId : string) : string := "user_" +:+ userId.
Definition user_projects_room (userId : string) : string := "user_projects_" +:+ userId.
Definition project_room (projectId : string) : string := "project_" +:+ projectId.
Definition whiteboard_room (whiteboardId : string) : string := "whiteboard_" +:+ whiteboardId.
Definition chat_room (chatId : string) : string := "chat_" +:+ chatId.

(** The room that Socket.IO itself gives every socket, named by the socket's
    id.  The id is an opaque string, unique to the connection, that no handler
    of this module reads; it is written here as the connection's number. *)
Definition socket_room (cid : nat) : string := pretty cid.

(** The second piece of [header.split(' ')]. *)
Fixpoint split_on (sep : Ascii.ascii) (s : string) : list string :=
  match s with
  | EmptyString => [""]
  | String c rest =>
      if Ascii.eqb c sep then "" :: split_on sep rest
      else match split_on sep rest with
           | piece :: pieces => String c piece :: pieces
           | [] => [String c ""]
           end
  end.

Record Handshake := mkHandshake {
  auth_token : option string;
  authorization : option string
}.

(** [auth.token || headers.authorization?.split(' ')[1]] *)
Definition handshake_token (hs : Handshake) : option string :=
  if truthy (auth_token hs) then auth_token hs
  else authorization hs ≫= λ header, split_on " "%char header !! 1%nat.

Inductive JwtResult :=
  | JwtPayload (id : option string)
  | JwtInvalidSignature
  | JwtExpired
  | JwtMalformed.

Inductive HandshakeResult :=
  | Accepted (user : User)
  | Refused (err : string).

Section Realtime.

(** The two collaborators outside the repository: [jwt.verify(token, secret)],
    which at a given time returns the payload or throws, and Mongoose's cast of a string to an
    ObjectId, whose failure makes [findById] throw. *)
Variable jwt_verify : nat → string → JwtResult.
Variable castable : string → bool.

(** [Model.findById(id)]: [None] is a thrown CastError, [Some None] is
    [null]. *)
Definition findById {A} (coll : gmap string A) (id : string) : option (option A) :=
  if castable id then Some (coll !! id) else None.

Definition User_findById (db : Store) (id : option string) : option (option User) :=
  match id with
  | Some i => findById (users db) i
  | None => Some None
  end.

(** The [io.use] middleware: what it passes to [next]. *)
Definition auth_middleware (db : Store) (clock : nat) (hs : Handshake)
    : HandshakeResult :=
  let token := handshake_token hs in
  if negb (truthy token) then
    Refused "Authentication error: No token provided"
  else
    match jwt_verify clock (default "" token) with
    | JwtPayload id =>
        match User_findById db id with
        | Some (Some user) =>
            if isActive user then Accepted user
            else Refused "Authentication error: Invalid user"
        | Some None => Refused "Authentication error: Invalid user"
        | None => Refused "Authentication error: Invalid token"
        end
    | _ => Refused "Authentication error: Invalid token"
    end.

Definition Whiteboard_findById (whiteboardId : string) : M (option Whiteboard) :=
  λ c, match findById (whiteboards (ctx_db c)) whiteboardId with
       | Some r => (c, [], Done r)
       | None => (c, [], Raised "CastError")
       end.

Definition Chat_findById (chatId : string) : M (option Chat) :=
  λ c, match findById (chats (ctx_db c)) chatId with
       | Some r => (c, [], Done r)
       | None => (c, [], Raised "CastError")
       end.

(** [doc.save()]: schema validation, the pre-save hook, the write.  It
    resolves to the saved document. *)
Definition Whiteboard_save (whiteboardId : string) (doc : Whiteboard) : M Whiteboard :=
  λ c, if forallb valid_element (elements doc) then
         let stored := default doc (whiteboards (ctx_db c) !! whiteboardId) in
         let saved := whiteboard_pre_save stored doc in
         ({| ctx_sock := ctx_sock c;
             ctx_db := {| users := users (ctx_db c);
                          whiteboards := <[whiteboardId := saved]> (whiteboards (ctx_db c));
                          chats := chats (ctx_db c) |} |},
          [], Done saved)
       else (c, [], Raised "ValidationError").

Definition Chat_save (chatId : string) (doc : Chat) (now : nat) : M Chat :=
  λ c, if forallb valid_message (messages doc) then
         let stored := default doc (chats (ctx_db c) !! chatId) in
         let saved := chat_pre_save stored doc now in
         ({| ctx_sock := ctx_sock c;
             ctx_db := {| users := users (ctx_db c);
                          whiteboards := whiteboards (ctx_db c);
                          chats := <[chatId := saved]> (chats (ctx_db c)) |} |},
          [], Done saved)
       else (c, [], Raised "ValidationError").

(** A model method that throws synchronously. *)
Definition or_throw {A} (r : option A) (err : string) : M A :=
  match r with
  | Some a => mret a
  | None => throw err
  end.

(** ** Inbound events and their handlers (the [socket.on] callbacks) *)

(** The events for which the connection callback registers a listener. *)
Inductive Listener :=
  | OnJoinProject
  | OnLeaveProject
  | OnJoinWhiteboard
  | OnWhiteboardElementAdd
  | OnWhiteboardElementUpdate
  | OnWhiteboardElementRemove
  | OnWhiteboardCursorUpdate
  | OnJoinChat
  | OnChatMessage
  | OnChatTypingStart
  | OnChatTypingStop
  | OnChatMessageRead
  | OnUserPresenceUpdate.

Definition listener_name (listener : Listener) : string :=
  match listener with
  | OnJoinProject => "join-project"
  | OnLeaveProject => "leave-project"
  | OnJoinWhiteboard => "join-whiteboard"
  | OnWhiteboardElementAdd => "whiteboard-element-add"
  | OnWhiteboardElementUpdate => "whiteboard-element-update"
  | OnWhiteboardElementRemove => "whiteboard-element-remove"
  | OnWhiteboardCursorUpdate => "whiteboard-cursor-update"
  | OnJoinChat => "join-chat"
  | OnChatMessage => "chat-message"
  | OnChatTypingStart => "chat-typing-start"
  | OnChatTypingStop => "chat-typing-stop"
  | OnChatMessageRead => "chat-message-read"
  | OnUserPresenceUpdate => "user-presence-update"
  end.


(** An event as a client sends it.  The first thirteen carry a payload, of
    which each field the listener destructures may be absent (a payload that
    is a number or a string has none of them); [NoPayload] is the event sent
    with no argument, or with [null], so that [data] is [undefined] or
    [null] in the listener. *)
Inductive Inbound :=
  | JoinProject (projectId : option string)
  | LeaveProject (projectId : option string)
  | JoinWhiteboard (whiteboardId : option string)
  | WhiteboardElementAdd (whiteboardId : option string) (element : option Element)
  | WhiteboardElementUpdate (whiteboardId elementId : option string)
      (updates : option Element)
  | WhiteboardElementRemove (whiteboardId elementId : option string)
  | WhiteboardCursorUpdate (whiteboardId : option string) (cursor : option (Z * Z))
  | JoinChat (chatId : option string)
  | ChatMessage (chatId content type : option string)
      (attachments : option (list Attachment))
  | ChatTypingStart (chatId : option string)
  | ChatTypingStop (chatId : option string)
  | ChatMessageRead (chatId messageId : option string)
  | UserPresenceUpdate (status projectId : option string)
  | NoPayload (listener : Listener).

Definition inbound_name (ev : Inbound) : string :=
  match ev with
  | JoinProject _ => "join-project"
  | LeaveProject _ => "leave-project"
  | JoinWhiteboard _ => "join-whiteboard"
  | WhiteboardElementAdd _ _ => "whiteboard-element-add"
  | WhiteboardElementUpdate _ _ _ => "whiteboard-element-update"
  | WhiteboardElementRemove _ _ => "whiteboard-element-remove"
  | WhiteboardCursorUpdate _ _ => "whiteboard-cursor-update"
  | JoinChat _ => "join-chat"
  | ChatMessage _ _ _ _ => "chat-message"
  | ChatTypingStart _ => "chat-typing-start"
  | ChatTypingStop _ => "chat-typing-stop"
  | ChatMessageRead _ _ => "chat-message-read"
  | UserPresenceUpdate _ _ => "user-presence-update"
  | NoPayload listener => listener_name listener
  end.

Section Handlers.

Variable now : nat.
Variable rnd : string.

Definition on_join_project (projectId : option string) : M unit :=
  try_catch
    (if negb (truthy projectId) then
       socket_emit (EvError "Project ID is required")
     else
       let pid := default "" projectId in
       socket_join (project_room pid);;
       set_projectId (Some pid);;
       user ← socket_user;
       socket_join (user_projects_room (u_id user));;
       socket_to (project_room pid) (UserJoinedProject (card user) now))
    (λ error,
       console_error "Error joining project:" error;;
       socket_emit (EvError "Failed to join project")).

Definition on_leave_project (projectId : option string) : M unit :=
  s ← socket_get;
  if truthy projectId && bool_decide (s_projectId s = projectId) then
    let pid := default "" projectId in
    socket_leave (project_room pid);;
    set_projectId None;;
    socket_to (project_room pid) (UserLeftProject (brief (s_user s)) now)
  else mret tt.

Definition on_join_whiteboard (whiteboardId : option string) : M unit :=
  try_catch
    (if negb (truthy whiteboardId) then
       socket_emit (EvError "Whiteboard ID is required")
     else
       let wid := default "" whiteboardId in
       socket_join (whiteboard_room wid);;
       set_whiteboardId (Some wid);;
       whiteboard ← Whiteboard_findById wid;
       match whiteboard with
       | Some w =>
           user ← socket_user;
           w' ← Whiteboard_save wid (updateCollaboratorCursor w (u_id user) (0, 0)%Z now);
           socket_emit (WhiteboardState w' (collaborators w'));;
           socket_to (whiteboard_room wid) (UserJoinedWhiteboard (card user))
       | None => mret tt
       end)
    (λ error,
       console_error "Error joining whiteboard:" error;;
       socket_emit (EvError "Failed to join whiteboard")).

(** [element.createdBy = socket.user._id] on the client's object. *)
Definition stamp_creator (element : Element) (userId : string) : Element :=
  {| e_id := e_id element;
     e_type := e_type element;
     e_position := e_position element;
     e_text := e_text element;
     e_createdBy := Some userId;
     e_createdAt := e_createdAt element;
     e_updatedAt := e_updatedAt element;
     e_extra := e_extra element |}.

Definition on_whiteboard_element_add (whiteboardId : option string)
    (element : option Element) : M unit :=
  try_catch
    (match whiteboardId, element with
     | Some wid, Some el =>
         if negb (truthy whiteboardId) then
           socket_emit (EvError "Invalid data for adding element")
         else
           whiteboard ← Whiteboard_findById wid;
           match whiteboard with
           | Some w =>
               user ← socket_user;
               let el' := stamp_creator el (u_id user) in
               Whiteboard_save wid (addElement w el' now rnd);;
               socket_to (whiteboard_room wid)
                 (WhiteboardElementAdded el' (brief user))
           | None => mret tt
           end
     | _, _ => socket_emit (EvError "Invalid data for adding element")
     end)
    (λ error,
       console_error "Error adding whiteboard element:" error;;
       socket_emit (EvError "Failed to add element")).

Definition on_whiteboard_element_update (whiteboardId elementId : option string)
    (updates : option Element) : M unit :=
  try_catch
    (match whiteboardId, elementId, updates with
     | Some wid, Some eid, Some upd =>
         if negb (truthy whiteboardId) || negb (truthy elementId) then
           socket_emit (EvError "Invalid data for updating element")
         else
           whiteboard ← Whiteboard_findById wid;
           match whiteboard with
           | Some w =>
               w' ← or_throw (updateElement w eid upd now) "Element not found";
               Whiteboard_save wid w';;
               user ← socket_user;
               socket_to (whiteboard_room wid)
                 (WhiteboardElementUpdated eid upd (brief user))
           | None => mret tt
           end
     | _, _, _ => socket_emit (EvError "Invalid data for updating element")
     end)
    (λ error,
       console_error "Error updating whiteboard element:" error;;
       socket_emit (EvError "Failed to update element")).

Definition on_whiteboard_element_remove (whiteboardId elementId : option string)
    : M unit :=
  try_catch
    (match whiteboardId, elementId with
     | Some wid, Some eid =>
         if negb (truthy whiteboardId) || negb (truthy elementId) then
           socket_emit (EvError "Invalid data for removing element")
         else
           whiteboard ← Whiteboard_findById wid;
           match whiteboard with
           | Some w =>
               Whiteboard_save wid (removeElement w eid);;
               user ← socket_user;
               socket_to (whiteboard_room wid)
                 (WhiteboardElementRemoved eid (brief user))
           | None => mret tt
           end
     | _, _ => socket_emit (EvError "Invalid data for removing element")
     end)
    (λ error,
       console_error "Error removing whiteboard element:" error;;
       socket_emit (EvError "Failed to remove element")).

Definition on_whiteboard_cursor_update (whiteboardId : option string)
    (cursor : option (Z * Z)) : M unit :=
  try_catch
    (match whiteboardId, cursor with
     | Some wid, Some cur =>
         if negb (truthy whiteboardId) then mret tt
         else
           whiteboard ← Whiteboard_findById wid;
           match whiteboard with
           | Some w =>
               user ← socket_user;
               Whiteboard_save wid (updateCollaboratorCursor w (u_id user) cur now);;
               socket_to (whiteboard_room wid)
                 (WhiteboardCursorUpdated (card user) cur)
           | None => mret tt
           end
     | _, _ => mret tt
     end)
    (λ error, console_error "Error updating cursor:" error).

Definition on_join_chat (chatId : option string) : M unit :=
  try_catch
    (if negb (truthy chatId) then
       socket_emit (EvError "Chat ID is required")
     else
       let cid := default "" chatId in
       socket_join (chat_room cid);;
       set_chatId (Some cid);;
       chat ← Chat_findById cid;
       match chat with
       | Some c =>
           user ← socket_user;
           socket_emit (ChatHistory c (filter (λ m, m_isDeleted m = false) (messages c)));;
           socket_to (chat_room cid) (UserJoinedChat (card user))
       | None => mret tt
       end)
    (λ error,
       console_error "Error joining chat:" error;;
       socket_emit (EvError "Failed to join chat")).

Definition on_chat_message (chatId content type : option string)
    (attachments : option (list Attachment)) : M unit :=
  try_catch
    (if negb (truthy chatId) || negb (truthy content) then
       socket_emit (EvError "Invalid message data")
     else
       let cid := default "" chatId in
       chat ← Chat_findById cid;
       match chat with
       | Some c =>
           user ← socket_user;
           let messageData :=
             {| md_id := None;
                md_content := default "" content;
                md_type := default "text" type;
                md_attachments := default [] attachments;
                md_sender := u_id user |} in
           c' ← Chat_save cid (addMessage c messageData now rnd) now;
           match last (messages c') with
           | Some message =>
               io_to (chat_room cid) (ChatMessageReceived message (card user))
           | None => throw "TypeError"
           end
       | None => mret tt
       end)
    (λ error,
       console_error "Error sending chat message:" error;;
       socket_emit (EvError "Failed to send message")).

Definition on_chat_typing (isTyping : bool) (chatId : option string) : M unit :=
  try_catch
    (if negb (truthy chatId) then mret tt
     else
       let cid := default "" chatId in
       chat ← Chat_findById cid;
       match chat with
       | Some c =>
           user ← socket_user;
           c' ← or_throw (updateTypingStatus c (u_id user) isTyping)
                  "User not found in chat";
           Chat_save cid c' now;;
           socket_to (chat_room cid) (UserTyping (brief user) isTyping)
       | None => mret tt
       end)
    (λ error, console_error "Error updating typing status:" error).

Definition on_chat_message_read (chatId messageId : option string) : M unit :=
  try_catch
    (if negb (truthy chatId) then mret tt
     else
       let cid := default "" chatId in
       chat ← Chat_findById cid;
       match chat with
       | Some c =>
           user ← socket_user;
           c' ← or_throw (markAsRead c (u_id user) messageId now)
                  "User not found in chat";
           Chat_save cid c' now;;
           socket_to (chat_room cid) (MessageRead messageId (brief user) now)
       | None => mret tt
       end)
    (λ error, console_error "Error marking message as read:" error).

Definition on_user_presence_update (status projectId : option string) : M unit :=
  if truthy projectId then
    user ← socket_user;
    socket_to (project_room (default "" projectId))
      (UserPresenceChanged (card user) status now)
  else mret tt.

(** The three cleanups of the [disconnect] callback, in source order. *)
Definition cleanup_whiteboard : M unit :=
  s ← socket_get;
  if truthy (s_whiteboardId s) then
    let wid := default "" (s_whiteboardId s) in
    whiteboard ← Whiteboard_findById wid;
    match whiteboard with
    | Some w =>
        Whiteboard_save wid (removeCollaborator w (u_id (s_user s)));;
        socket_to (whiteboard_room wid) (UserLeftWhiteboard (brief (s_user s)))
    | None => mret tt
    end
  else mret tt.

Definition cleanup_chat : M unit :=
  s ← socket_get;
  if truthy (s_chatId s) then
    let cid := default "" (s_chatId s) in
    chat ← Chat_findById cid;
    match chat with
    | Some c =>
        c' ← or_throw (updateTypingStatus c (u_id (s_user s)) false)
               "User not found in chat";
        Chat_save cid c' now;;
        socket_to (chat_room cid) (UserTyping (brief (s_user s)) false)
    | None => mret tt
    end
  else mret tt.

Definition cleanup_project : M unit :=
  s ← socket_get;
  if truthy (s_projectId s) then
    socket_to (project_room (default "" (s_projectId s)))
      (UserLeftProject (brief (s_user s)) now)
  else mret tt.

Definition on_disconnect : M unit :=
  try_catch
    (cleanup_whiteboard;; cleanup_chat;; cleanup_project)
    (λ error, console_error "Error cleaning up socket disconnect:" error).

Definition on_chat_typing_start := on_chat_typing true.
Definition on_chat_typing_stop := on_chat_typing false.

(** [const { ... } = data] with [data] undefined or null: the first statement
    of every listener throws a TypeError. *)
Definition destructure_undefined : M unit := throw "TypeError".

(** A listener run on an event without payload.  Where the destructuring
    stands inside the [try], the listener's own [catch] block takes the
    TypeError; in [leave-project] and [user-presence-update] nothing does,
    and it leaves the listener. *)
Definition on_no_payload (listener : Listener) : M unit :=
  match listener with
  | OnJoinProject =>
      try_catch destructure_undefined
        (λ error,
           console_error "Error joining project:" error;;
           socket_emit (EvError "Failed to join project"))
  | OnLeaveProject => destructure_undefined
  | OnJoinWhiteboard =>
      try_catch destructure_undefined
        (λ error,
           console_error "Error joining whiteboard:" error;;
           socket_emit (EvError "Failed to join whiteboard"))
  | OnWhiteboardElementAdd =>
      try_catch destructure_undefined
        (λ error,
           console_error "Error adding whiteboard element:" error;;
           socket_emit (EvError "Failed to add element"))
  | OnWhiteboardElementUpdate =>
      try_catch destructure_undefined
        (λ error,
           console_error "Error updating whiteboard element:" error;;
           socket_emit (EvError "Failed to update element"))
  | OnWhiteboardElementRemove =>
      try_catch destructure_undefined
        (λ error,
           console_error "Error removing whiteboard element:" error;;
           socket_emit (EvError "Failed to remove element"))
  | OnWhiteboardCursorUpdate =>
      try_catch destructure_undefined
        (λ error, console_error "Error updating cursor:" error)
  | OnJoinChat =>
      try_catch destructure_undefined
        (λ error,
           console_error "Error joining chat:" error;;
           socket_emit (EvError "Failed to join chat"))
  | OnChatMessage =>
      try_catch destructure_undefined
        (λ error,
           console_error "Error sending chat message:" error;;
           socket_emit (EvError "Failed to send message"))
  | OnChatTypingStart | OnChatTypingStop =>
      try_catch destructure_undefined
        (λ error, console_error "Error updating typing status:" error)
  | OnChatMessageRead =>
      try_catch destructure_undefined
        (λ error, console_error "Error marking message as read:" error)
  | OnUserPresenceUpdate => destructure_undefined
  end.

(** Dispatch by event name. *)
Definition handle (ev : Inbound) : M unit :=
  match ev with
  | JoinProject projectId => on_join_project projectId
  | LeaveProject projectId => on_leave_project projectId
  | JoinWhiteboard whiteboardId => on_join_whiteboard whiteboardId
  | WhiteboardElementAdd whiteboardId element =>
      on_whiteboard_element_add whiteboardId element
  | WhiteboardElementUpdate whiteboardId elementId updates =>
      on_whiteboard_element_update whiteboardId elementId updates
  | WhiteboardElementRemove whiteboardId elementId =>
      on_whiteboard_element_remove whiteboardId elementId
  | WhiteboardCursorUpdate whiteboardId cursor =>
      on_whiteboard_cursor_update whiteboardId cursor
  | JoinChat chatId => on_join_chat chatId
  | ChatMessage chatId content type attachments =>
      on_chat_message chatId content type attachments
  | ChatTypingStart chatId => on_chat_typing_start chatId
  | ChatTypingStop chatId => on_chat_typing_stop chatId
  | ChatMessageRead chatId messageId => on_chat_message_read chatId messageId
  | UserPresenceUpdate status projectId => on_user_presence_update status projectId
  | NoPayload listener => on_no_payload listener
  end.

End Handlers.







(** ** The server: connection registry, rooms and delivery

    A handler run is atomic here: the interleaving of other connections'
    handlers at an [await] is not modelled. *)

Record Server := mkServer {
  srv_conns : gmap nat Socket;
  srv_db : Store
}.

(** The connections currently in [room]. *)
Definition members (conns : gmap nat Socket) (room : string) : list nat :=
  (map_to_list (filter (λ kv, room ∈ s_rooms kv.2) conns)).*1.

(** Who receives what for one action of the connection [sender]. *)
Definition route (conns : gmap nat Socket) (sender : nat) (a : Action)
    : list (nat * OutEvent) :=
  match a with
  | EmitSelf ev => [(sender, ev)]
  | ToRoomExcl room ev =>
      (λ c, (c, ev)) <$> filter (λ c, c ≠ sender) (members conns room)
  | ToRoomAll room ev => (λ c, (c, ev)) <$> members conns room
  | ConsoleError _ _ => []
  end.

Definition deliveries (conns : gmap nat Socket) (sender : nat)
    (acts : list Action) : list (nat * OutEvent) :=
  acts ≫= route conns sender.

(** [io.on('connection')]: the socket, which Socket.IO has already put in
    the room of its own id, joins its personal room. *)
Definition new_socket (cid : nat) (user : User) : Socket :=
  {| s_user := user;
     s_rooms := {[ socket_room cid; user_room (u_id user) ]};
     s_projectId := None;
     s_whiteboardId := None;
     s_chatId := None |}.

Inductive ConnectResult :=
  | Connected (cid : nat)
  | ConnectError (err : string).

(** A handshake: the middleware decides; only on [next()] without an error
    does the connection callback run and the connection exist. *)
Definition connect (srv : Server) (clock : nat) (hs : Handshake)
    : Server * ConnectResult :=
  match auth_middleware (srv_db srv) clock hs with
  | Accepted user =>
      let cid := fresh (dom (srv_conns srv)) in
      ({| srv_conns := <[cid := new_socket cid user]> (srv_conns srv);
          srv_db := srv_db srv |},
       Connected cid)
  | Refused err => (srv, ConnectError err)
  end.

(** An inbound event of connection [cid]; [None] when there is no such
    connection, hence no handler to run.  The result is the state and the
    emissions as the listener leaves them, whether it returns or throws;
    [uncaught] below tells which. *)
Definition receive (srv : Server) (cid : nat) (ev : Inbound) (now : nat)
    (rnd : string) : option (Server * list Action * list (nat * OutEvent)) :=
  match srv_conns srv !! cid with
  | Some s =>
      match handle now rnd ev {| ctx_sock := s; ctx_db := srv_db srv |} with
      | (c, acts, _) =>
          let conns := <[cid := ctx_sock c]> (srv_conns srv) in
          Some ({| srv_conns := conns; srv_db := ctx_db c |}, acts,
                deliveries conns cid acts)
      end
  | None => None
  end.

(** The exception, if any, that leaves the listener of [ev] on connection
    [cid].  Nothing in this module catches it: what becomes of the process
    and of its connections after it is decided elsewhere. *)
Definition uncaught (srv : Server) (cid : nat) (ev : Inbound) (now : nat)
    (rnd : string) : option string :=
  match srv_conns srv !! cid with
  | Some s =>
      match handle now rnd ev {| ctx_sock := s; ctx_db := srv_db srv |} with
      | (_, _, Raised err) => Some err
      | (_, _, Done _) => None
      end
  | None => None
  end.

(** Transport close of connection [cid]. *)
Definition disconnect (srv : Server) (cid : nat) (now : nat)
    : option (Server * list Action * list (nat * OutEvent)) :=
  match srv_conns srv !! cid with
  | Some s =>
      match on_disconnect now {| ctx_sock := s; ctx_db := srv_db srv |} with
      | (c, acts, _) =>
          let conns := delete cid (srv_conns srv) in
          Some ({| srv_conns := conns; srv_db := ctx_db c |}, acts,
                deliveries conns cid acts)
      end
  | None => None
  end.

(** What the transport feeds the server. *)
Inductive Input :=
  | InConnect (clock : nat) (hs : Handshake)
  | InEvent (cid : nat) (ev : Inbound) (now : nat) (rnd : string)
  | InDisconnect (cid : nat) (now : nat).

(** One input, as a change of state.  A listener that threw leaves the state
    it had reached, and a run goes on from there: the runs cover a process
    that survives the exception as well as one that ends with it. *)
Definition server_step (srv : Server) (i : Input) : Server :=
  match i with
  | InConnect clock hs => (connect srv clock hs).1
  | InEvent cid ev now rnd =>
      match receive srv cid ev now rnd with
      | Some (srv', _, _) => srv'
      | None => srv
      end
  | InDisconnect cid now =>
      match disconnect srv cid now with
      | Some (srv', _, _) => srv'
      | None => srv
      end
  end.

Definition run (srv : Server) (inputs : list Input) : Server :=
  foldl server_step srv inputs.

Definition boot (db : Store) : Server := {| srv_conns := ∅; srv_db := db |}.

(** An identity the authenticator has verified: some token verified at some
    time names a stored user, and that user is active. *)
Definition verified_active (db : Store) (u : User) : Prop :=
  isActive u = true ∧
  ∃ clock token id,
    jwt_verify clock token = JwtPayload (Some id) ∧ users db !! id = Some u.

(** ** Predicates the properties are stated with *)

(** A computation that changes neither the users collection nor the identity
    attached to the socket. *)
Definition keeps_identity {A} (m : M A) : Prop :=
  ∀ c, users (ctx_db (m c).1.1) = users (ctx_db c) ∧
       s_user (ctx_sock (m c).1.1) = s_user (ctx_sock c).

(** A computation all of whose actions satisfy [P]. *)
Definition emits_only {A} (P : Action → Prop) (m : M A) : Prop :=
  ∀ c, Forall P (m c).1.2.

(** An action that does not go through [io.to(room)]. *)
Definition not_to_all (a : Action) : Prop := ∀ room ev, a ≠ ToRoomAll room ev.

(** An action that is not a [socket.emit] to the connection itself. *)
Definition no_self_emit (a : Action) : Prop := ∀ ev, a ≠ EmitSelf ev.

(** The registry invariant: the users collection is the one the server
    booted with, and every registered connection carries an identity the
    authenticator verified. *)
Definition registry_ok (db : Store) (srv : Server) : Prop :=
  users (srv_db srv) = users db ∧
  ∀ cid s, srv_conns srv !! cid = Some s → verified_active db (s_user s).

(** A credential the authenticator must turn down: none presented, a
    signature that does not verify, an expired or malformed token, a payload
    naming no stored user (or one whose id does not cast), or a user whose
    account is deactivated. *)
Definition bad_credential (db : Store) (clock : nat) (hs : Handshake) : Prop :=
  truthy (handshake_token hs) = false ∨
  ∃ token, handshake_token hs = Some token ∧
    (jwt_verify clock token = JwtInvalidSignature ∨
     jwt_verify clock token = JwtExpired ∨
     jwt_verify clock token = JwtMalformed ∨
     ∃ id, jwt_verify clock token = JwtPayload id ∧
       (User_findById db id = None ∨
        User_findById db id = Some None ∨
        ∃ u, User_findById db id = Some (Some u) ∧ isActive u = false)).

End Realtime.

(** ** A concrete deployment, for running the handlers *)

Module Demo.

Definition alice : User := mkUser "u1" "alice" "Alice" "A" "a.png" true.
Definition bob : User := mkUser "u2" "bob" "Bob" "B" "b.png" true.
Definition carol : User := mkUser "u3" "carol" "Carol" "C" "c.png" false.

(** Tokens are valid before time 1000; ["forged"] has a bad signature. *)
Definition jwt (clock : nat) (token : string) : JwtResult :=
  if bool_decide (token = "forged") then JwtInvalidSignature
  else if negb (clock <? 1000)%nat then JwtExpired
  else if bool_decide (token = "tok-alice") then JwtPayload (Some "u1")
  else if bool_decide (token = "tok-bob") then JwtPayload (Some "u2")
  else if bool_decide (token = "tok-carol") then JwtPayload (Some "u3")
  else if bool_decide (token = "tok-ghost") then JwtPayload (Some "u9")
  else JwtMalformed.

Definition oid (id : string) : bool := negb (bool_decide (id = "not-an-object-id")).

Definition rect (id : string) : Element :=
  {| e_id := Some id; e_type := Some "rectangle"; e_position := Some (10, 20)%Z;
     e_text := None; e_createdBy := Some "u1"; e_createdAt := Some 1;
     e_updatedAt := Some 1; e_extra := ∅ |}.

Definition board : Whiteboard :=
  {| elements := [rect "e1"]; collaborators := []; version := 1 |}.

Definition hello : Message :=
  {| m_id := "m1"; m_sender := "u1"; m_content := "hello"; m_type := "text";
     m_attachments := []; m_readBy := []; m_isEdited := false;
     m_editedAt := None; m_isDeleted := false; m_deletedAt := None;
     m_createdAt := 1 |}.

Definition room_chat : Chat :=
  {| participants := [mkParticipant "u1" "member" 0 false];
     messages := [hello]; lastActivity := 1 |}.

(** [hello] after a soft delete at time 2, and a chat holding it. *)
Definition gone : Message := mark_deleted hello 2.

Definition chat_with_deleted : Chat :=
  {| participants := [mkParticipant "u1" "member" 0 false];
     messages := [gone]; lastActivity := 2 |}.

Definition rewrite_content : MessageUpdates :=
  {| mu_id := None; mu_sender := None; mu_content := Some "rewritten";
     mu_type := None; mu_attachments := None; mu_readBy := None;
     mu_isEdited := None; mu_editedAt := None; mu_isDeleted := None;
     mu_deletedAt := None; mu_createdAt := None |}.

(** An edit that also names the sender and the read and deletion state. *)
Definition rewrite_all : MessageUpdates :=
  {| mu_id := None; mu_sender := Some "u2"; mu_content := Some "rewritten";
     mu_type := None; mu_attachments := None; mu_readBy := Some [];
     mu_isEdited := Some false; mu_editedAt := Some None;
     mu_isDeleted := Some false; mu_deletedAt := Some None;
     mu_createdAt := Some 5%nat |}.

Definition db : Store :=
  {| users := {[ "u1" := alice; "u2" := bob; "u3" := carol ]};
     whiteboards := {[ "w1" := board ]};
     chats := {[ "c1" := room_chat ]} |}.

(** Alice (connection 0) and Bob (connection 1), both in project [p1],
    whiteboard [w1] and chat [c1]. *)
Definition joined (cid : nat) (u : User) : Socket :=
  {| s_user := u;
     s_rooms := {[ socket_room cid; user_room (u_id u); project_room "p1";
                   user_projects_room (u_id u); whiteboard_room "w1";
                   chat_room "c1" ]};
     s_projectId := Some "p1";
     s_whiteboardId := Some "w1";
     s_chatId := Some "c1" |}.

Definition srv : Server :=
  {| srv_conns := {[ 0%nat := joined 0%nat alice; 1%nat := joined 1%nat bob ]};
     srv_db := db |}.

End Demo.

(** * The rest of the models and the HTTP guards *)

(** ** Chat virtuals *)

(** [chat.unreadCount(userId)]: the messages newer than the participant's
    [lastRead], not deleted, and sent by somebody else. *)
Definition unreadCount (c : Chat) (userId : string) : nat :=
  match list_find (is_participant userId) (participants c) with
  | Some (_, participant) =>
      length (filter (λ m, (p_lastRead participant < m_createdAt m)%nat ∧
                           m_isDeleted m = false ∧
                           m_sender m ≠ userId) (messages c))
  | None => 0%nat
  end.

(** [chat.lastMessage]: the last message that is not deleted, or [null]. *)
Definition lastMessage (c : Chat) : option Message :=
  last (filter (λ m, m_isDeleted m = false) (messages c)).

(** ** Reactions (Chat methods [addReaction], [removeReaction])

    A message together with its [reactions] array, the schema field the
    record [Message] does not carry. *)

Record Reaction := mkReaction {
  rx_user : string;
  rx_emoji : string;
  rx_createdAt : nat
}.

Record Reacted := mkReacted {
  rm_message : Message;
  rm_reactions : list Reaction
}.

Definition same_reaction (userId emoji : string) (r : Reaction) : Prop :=
  rx_user r = userId ∧ rx_emoji r = emoji.

#[global] Instance same_reaction_dec userId emoji r :
  Decision (same_reaction userId emoji r).
Proof. unfold same_reaction. apply _. Defined.

Definition reacted_has_id (messageId : string) (m : Reacted) : Prop :=
  m_id (rm_message m) = messageId.

#[global] Instance reacted_has_id_dec messageId m :
  Decision (reacted_has_id messageId m).
Proof. unfold reacted_has_id. apply _. Defined.

(** [None] is [throw new Error('Message not found')], which the method also
    reaches when the message exists and already carries the reaction. *)
Definition addReaction (msgs : list Reacted) (messageId userId emoji : string)
    (now : nat) : option (list Reacted) :=
  match list_find (reacted_has_id messageId) msgs with
  | Some (i, message) =>
      match list_find (same_reaction userId emoji) (rm_reactions message) with
      | Some _ => None
      | None =>
          Some (<[i := {| rm_message := rm_message message;
                          rm_reactions :=
                            rm_reactions message ++
                            [{| rx_user := userId; rx_emoji := emoji;
                                rx_createdAt := now |}] |}]> msgs)
      end
  | None => None
  end.

Definition removeReaction (msgs : list Reacted) (messageId userId emoji : string)
    : option (list Reacted) :=
  match list_find (reacted_has_id messageId) msgs with
  | Some (i, message) =>
      Some (<[i := {| rm_message := rm_message message;
                      rm_reactions :=
                        filter (λ r, ¬ same_reaction userId emoji r)
                               (rm_reactions message) |}]> msgs)
  | None => None
  end.

(** ** Project model (Project schema and methods) *)

Record Member := mkMember {
  mb_user : string;
  mb_role : string;
  mb_joinedAt : nat
}.

Record Project := mkProject {
  pr_owner : string;
  pr_members : list Member;
  pr_totalMembers : nat
}.

(** [const roleHierarchy = { 'viewer': 1, 'member': 2, 'admin': 3 }]; a key
    it does not hold compares false against everything. *)
Definition roleHierarchy (role : string) : option nat :=
  if bool_decide (role = "viewer") then Some 1%nat
  else if bool_decide (role = "member") then Some 2%nat
  else if bool_decide (role = "admin") then Some 3%nat
  else None.

Definition is_member (userId : string) (m : Member) : Prop := mb_user m = userId.

#[global] Instance is_member_dec userId m : Decision (is_member userId m).
Proof. unfold is_member. apply _. Defined.

(** [project.hasAccess(userId, requiredRole = 'viewer')] *)
Definition hasAccess (p : Project) (userId : string) (requiredRole : option string)
    : bool :=
  if bool_decide (pr_owner p = userId) then true
  else
    match list_find (is_member userId) (pr_members p) with
    | None => false
    | Some (_, member) =>
        match roleHierarchy (mb_role member),
              roleHierarchy (default "viewer" requiredRole) with
        | Some have, Some need => (need <=? have)%nat
        | _, _ => false
        end
    end.

(** The verdict of [hasAccess] for a user who is not the owner and whose
    first member entry has role [have]. *)
Definition role_suffices (have : string) (requiredRole : option string) : bool :=
  match roleHierarchy have, roleHierarchy (default "viewer" requiredRole) with
  | Some a, Some b => (b <=? a)%nat
  | _, _ => false
  end.

(** [project.addMember(userId, role = 'member')], before the save. *)
Definition addMember (p : Project) (userId : string) (role : option string)
    (now : nat) : Project :=
  let r := default "member" role in
  {| pr_owner := pr_owner p;
     pr_members :=
       match list_find (is_member userId) (pr_members p) with
       | Some (i, existingMember) =>
           <[i := {| mb_user := mb_user existingMember; mb_role := r;
                     mb_joinedAt := mb_joinedAt existingMember |}]> (pr_members p)
       | None =>
           pr_members p ++ [{| mb_user := userId; mb_role := r; mb_joinedAt := now |}]
       end;
     pr_totalMembers := pr_totalMembers p |}.

(** [project.removeMember(userId)], before the save. *)
Definition removeMember (p : Project) (userId : string) : Project :=
  {| pr_owner := pr_owner p;
     pr_members := filter (λ m, ¬ is_member userId m) (pr_members p);
     pr_totalMembers := pr_totalMembers p |}.

(** [pre('save')]: [metrics.totalMembers] counts the members and the owner. *)
Definition project_pre_save (p : Project) : Project :=
  {| pr_owner := pr_owner p;
     pr_members := pr_members p;
     pr_totalMembers := length (pr_members p) + 1 |}.

(** ** HTTP guards (middleware/auth.js) *)

(** What a middleware does: call [next()], with what it attached to the
    request, or answer with a status and a message. *)
Inductive Guard (A : Type) :=
  | Next (a : A)
  | Respond (status : nat) (message : string).
Arguments Next {A} a.
Arguments Respond {A} status message.

(** [req.user] as [authorize] reads it: the user and its [role]. *)
Record Requester := mkRequester {
  rq_user : User;
  rq_role : string
}.

(** The token [protect] and [optionalAuth] read off the Authorization
    header. *)
Definition bearer_token (authorization : option string) : option string :=
  match authorization with
  | Some header =>
      if truthy authorization && String.prefix "Bearer" header
      then split_on " "%char header !! 1%nat
      else None
  | None => None
  end.

(** [authorize(...roles)] *)
Definition authorize (roles : list string) (requester : option Requester)
    : Guard unit :=
  match requester with
  | None => Respond 401 "User not authenticated"
  | Some r =>
      if bool_decide (rq_role r ∈ roles) then Next tt
      else Respond 403 ("User role " +:+ rq_role r +:+
                        " is not authorized to access this route")
  end.

Definition requireAdmin := authorize ["admin"].
Definition requireMember := authorize ["admin"; "member"].
Definition requireViewer := authorize ["admin"; "member"; "viewer"].

Section Guards.

Variable jwt_verify : nat → string → JwtResult.
Variable castable : string → bool.

(** [protect]: the request goes on with [req.user] set, or is answered 401. *)
Definition protect (db : Store) (clock : nat) (authorization : option string)
    : Guard User :=
  let token := bearer_token authorization in
  if negb (truthy token) then
    Respond 401 "Not authorized to access this route"
  else
    match jwt_verify clock (default "" token) with
    | JwtPayload id =>
        match User_findById castable db id with
        | Some (Some user) =>
            if isActive user then Next user
            else Respond 401 "User account is deactivated"
        | Some None => Respond 401 "User not found"
        | None => Respond 401 "Token is not valid"
        end
    | _ => Respond 401 "Token is not valid"
    end.

(** [optionalAuth]: always [next()]; the result is [req.user], if set. *)
Definition optionalAuth (db : Store) (clock : nat) (authorization : option string)
    : option User :=
  let token := bearer_token authorization in
  if truthy token then
    match jwt_verify clock (default "" token) with
    | JwtPayload id =>
        match User_findById castable db id with
        | Some (Some user) => if isActive user then Some user else None
        | _ => None
        end
    | _ => None
    end
  else None.

(** [projectAccess(requiredRole = 'viewer')], for the authenticated user
    [userId]: [req.project] on success. *)
Definition projectAccess (requiredRole : option string)
    (projects : gmap string Project) (projectId : option string)
    (userId : string) : Guard Project :=
  if negb (truthy projectId) then Respond 400 "Project ID is required"
  else
    match findById castable projects (default "" projectId) with
    | Some (Some project) =>
        if hasAccess project userId (Some (default "viewer" requiredRole))
        then Next project
        else Respond 403 ("Access denied. Required role: " +:+
                          default "viewer" requiredRole)
    | Some None => Respond 404 "Project not found"
    | None => Respond 500 "Server error in project access check"
    end.

End Guards.

(** ** Predicates for the further properties *)


(** A computation that takes the socket out of no room. *)
Definition keeps_rooms {A} (m : M A) : Prop :=
  ∀ c, s_rooms (ctx_sock c) ⊆ s_rooms (ctx_sock (m c).1.1).

(** An action that does not send an [error] event to a room. *)
Definition no_room_error (a : Action) : Prop :=
  ∀ room msg, a ≠ ToRoomExcl room (EvError msg) ∧ a ≠ ToRoomAll room (EvError msg).

(** An action that sends no [error] event at all. *)
Definition no_error (a : Action) : Prop :=
  no_room_error a ∧ ∀ msg, a ≠ EmitSelf (EvError msg).

(** ** More of the concrete deployment *)

Module Demo2.

Definition site : Project :=
  {| pr_owner := "u1";
     pr_members := [mkMember "u2" "member" 3; mkMember "u3" "viewer" 4];
     pr_totalMembers := 3 |}.

Definition thumbs : Reaction := mkReaction "u2" "+1" 5.

Definition thread : list Reacted :=
  [ {| rm_message := Demo.hello; rm_reactions := [thumbs] |} ].

(** Alice is joined everywhere (connection 0); Bob has only just connected
    (connection 1). *)
Definition srv2 : Server :=
  {| srv_conns := {[ 0%nat := Demo.joined 0%nat Demo.alice; 1%nat := new_socket 1%nat Demo.bob ]};
     srv_db := Demo.db |}.

Definition projects : gmap string Project := {[ "p1" := site ]}.

(** A chat whose participant list holds Bob as well. *)
Definition lounge : Chat :=
  {| participants := [mkParticipant "u1" "member" 0 false;
                      mkParticipant "u2" "member" 0 false];
     messages := [Demo.hello]; lastActivity := 1 |}.

End Demo2.

(** * Properties *)

Section Properties.

Variable jwt_verify : nat → string → JwtResult.
Variable castable : string → bool.

(** ** What every handler leaves alone: the socket's identity and the users *)

Lemma keeps_ret {A} (a : A) : keeps_identity (mret a).
Proof. by intros c. Qed.

Lemma keeps_throw {A} err : keeps_identity (@throw A err).
Proof. by intros c. Qed.

Lemma keeps_bind {A B} (m : M A) (k : A → M B) :
  keeps_identity m → (∀ a, keeps_identity (k a)) → keeps_identity (m ≫= k).
Proof.
  intros Hm Hk c. unfold mbind, M_bind, bindM.
  specialize (Hm c). destruct (m c) as [[c1 o1] [a|e]]; simpl in *; [|done].
  specialize (Hk a c1). destruct (k a c1) as [[c2 o2] r]; simpl in *.
  destruct Hm, Hk. split; congruence.
Qed.

Lemma keeps_try_catch (body : M unit) handler :
  keeps_identity body → (∀ e, keeps_identity (handler e)) →
  keeps_identity (try_catch body handler).
Proof.
  intros Hm Hk c. unfold try_catch.
  specialize (Hm c). destruct (body c) as [[c1 o1] [a|e]]; simpl in *; [done|].
  specialize (Hk e c1). destruct (handler e c1) as [[c2 o2] r]; simpl in *.
  destruct Hm, Hk. split; congruence.
Qed.

Lemma keeps_act a : keeps_identity (act a).
Proof. by intros c. Qed.

Lemma keeps_socket_user : keeps_identity socket_user.
Proof. by intros c. Qed.

Lemma keeps_socket_get : keeps_identity socket_get.
Proof. by intros c. Qed.

Lemma keeps_modify_socket f :
  (∀ s, s_user (f s) = s_user s) → keeps_identity (modify_socket f).
Proof. intros Hf c. simpl. by rewrite Hf. Qed.

Lemma keeps_Whiteboard_findById id : keeps_identity (Whiteboard_findById castable id).
Proof. intros c. unfold Whiteboard_findById. by destruct (findById _ _ _). Qed.

Lemma keeps_Chat_findById id : keeps_identity (Chat_findById castable id).
Proof. intros c. unfold Chat_findById. by destruct (findById _ _ _). Qed.

Lemma keeps_Whiteboard_save id doc : keeps_identity (Whiteboard_save id doc).
Proof. intros c. unfold Whiteboard_save. by destruct (forallb _ _). Qed.

Lemma keeps_Chat_save id doc now : keeps_identity (Chat_save id doc now).
Proof. intros c. unfold Chat_save. by destruct (forallb _ _). Qed.

Lemma keeps_or_throw {A} (r : option A) err : keeps_identity (or_throw r err).
Proof. destruct r; [apply keeps_ret | apply keeps_throw]. Qed.

Create HintDb keeps.
#[local] Hint Resolve keeps_ret keeps_throw keeps_act keeps_socket_user
  keeps_socket_get keeps_Whiteboard_findById keeps_Chat_findById
  keeps_Whiteboard_save keeps_Chat_save keeps_or_throw : keeps.

Ltac keeps_step :=
  first
    [ apply keeps_try_catch
    | apply keeps_bind
    | apply keeps_modify_socket; by intros []
    | progress (unfold socket_emit, socket_to, io_to, console_error,
                socket_join, socket_leave, set_projectId, set_whiteboardId,
                set_chatId)
    | solve [auto with keeps]
    | case_match ].

Ltac keeps := repeat (intros; keeps_step).

Lemma keeps_on_disconnect now : keeps_identity (on_disconnect castable now).
Proof. unfold on_disconnect, cleanup_whiteboard, cleanup_chat, cleanup_project. keeps. Qed.

Lemma keeps_handle now rnd ev : keeps_identity (handle castable now rnd ev).
Proof.
  destruct ev; simpl;
    unfold on_join_project, on_leave_project, on_join_whiteboard,
      on_whiteboard_element_add, on_whiteboard_element_update,
      on_whiteboard_element_remove, on_whiteboard_cursor_update, on_join_chat,
      on_chat_message, on_chat_typing_start, on_chat_typing_stop,
      on_chat_typing, on_chat_message_read, on_user_presence_update,
      on_no_payload, destructure_undefined;
    keeps.
Qed.

(** ** The handshake gate *)

Lemma auth_middleware_accepts db clock hs user :
  auth_middleware jwt_verify castable db clock hs = Accepted user →
  verified_active jwt_verify db user.
Proof.
  unfold auth_middleware. intros H.
  destruct (truthy (handshake_token hs)); simpl in H; [|done].
  destruct (jwt_verify clock _) as [id| | |] eqn:Hjwt; try done.
  destruct id as [id|]; simpl in H; [|done].
  unfold findById in H. destruct (castable id); [|done].
  destruct (users db !! id) as [u|] eqn:Hu; [|done].
  destruct (isActive u) eqn:Hact; [|done].
  injection H as <-. split; [done|]. eauto.
Qed.

Lemma registry_ok_step db srv i :
  registry_ok jwt_verify db srv → registry_ok jwt_verify db (server_step jwt_verify castable srv i).
Proof.
  intros [Hu Hc]. destruct i as [clock hs|cid ev now rnd|cid now]; simpl.
  - unfold connect.
    destruct (auth_middleware _ _ _ _ _) as [user|err] eqn:Hauth; simpl; [|done].
    split; [done|]. intros cid s. cbn.
    rewrite lookup_insert. case_decide.
    + intros [= <-]. simpl. apply auth_middleware_accepts in Hauth.
      destruct Hauth as [? (t & tok & id & ? & Hl)].
      split; [done|]. exists t, tok, id. by rewrite <-Hu.
    + apply Hc.
  - unfold receive. destruct (srv_conns srv !! cid) as [s|] eqn:Hs; [|done].
    pose proof (keeps_handle now rnd ev {| ctx_sock := s; ctx_db := srv_db srv |}) as [Hk1 Hk2].
    destruct (handle _ _ _ _ _) as [[c acts] r]; simpl in *.
    split; [simpl; congruence|]. intros cid' s'. cbn.
    rewrite lookup_insert. case_decide.
    + intros [= <-]. rewrite Hk2. by eapply Hc.
    + apply Hc.
  - unfold disconnect. destruct (srv_conns srv !! cid) as [s|] eqn:Hs; [|done].
    pose proof (keeps_on_disconnect now {| ctx_sock := s; ctx_db := srv_db srv |}) as [Hk1 Hk2].
    destruct (on_disconnect _ _ _) as [[c acts] r]; simpl in *.
    split; [simpl; congruence|]. intros cid' s'. cbn.
    rewrite lookup_delete. case_decide; [done|]. apply Hc.
Qed.

Lemma registry_ok_run db inputs srv :
  registry_ok jwt_verify db srv → registry_ok jwt_verify db (run jwt_verify castable srv inputs).
Proof.
  revert srv. induction inputs as [|i inputs IH]; intros srv H; [done|].
  simpl. apply IH. by apply registry_ok_step.
Qed.

(** C1. A handshake whose credential is missing, badly signed, expired, or
    names an unknown or deactivated identity is refused with a connection
    error and leaves the server as it was: no connection is registered, and an
    event sent under an id that is not registered runs no handler.  Conversely,
    in every state the server reaches from boot, each registered connection
    (the only ones handlers run for) carries a verified, active identity. *)
Theorem handshake_gate :
  (∀ srv clock hs,
     bad_credential jwt_verify castable (srv_db srv) clock hs →
     ∃ err, connect jwt_verify castable srv clock hs = (srv, ConnectError err)) ∧
  (∀ srv cid ev now rnd,
     srv_conns srv !! cid = None ↔ receive castable srv cid ev now rnd = None) ∧
  (∀ db inputs cid s,
     srv_conns (run jwt_verify castable (boot db) inputs) !! cid = Some s →
     verified_active jwt_verify db (s_user s)).
Proof.
  split; [|split].
  - intros srv clock hs Hbad. unfold connect, auth_middleware.
    destruct Hbad as [Hmiss | (token & Htok & Hbad)].
    + rewrite Hmiss. simpl. eauto.
    + rewrite Htok. simpl. destruct (bool_decide (token = "")); simpl; [eauto|].
      destruct Hbad as [H|[H|[H|(id & H & Hu)]]]; rewrite H; eauto.
      destruct Hu as [Hu|[Hu|(u & Hu & Hact)]]; rewrite Hu; eauto.
      rewrite Hact. eauto.
  - intros srv cid ev now rnd. unfold receive.
    destruct (srv_conns srv !! cid) as [s|]; [|done].
    destruct (handle _ _ _ _ _) as [[c acts] r]. done.
  - intros db inputs cid s Hs.
    assert (registry_ok jwt_verify db (boot db)) as H0 by (split; [done|]; intros ??; cbn; by rewrite lookup_empty).
    apply (registry_ok_run db inputs) in H0. destruct H0 as [_ H0]. by eapply H0.
Qed.

(** ** Helper facts about the registry and rooms *)

Lemma elem_of_members conns room c :
  c ∈ members conns room ↔ ∃ s, conns !! c = Some s ∧ room ∈ s_rooms s.
Proof.
  unfold members. rewrite list_elem_of_fmap. split.
  - intros ([c' s] & -> & H). apply elem_of_map_to_list in H.
    apply map_lookup_filter_Some in H as [H1 H2]. eauto.
  - intros (s & H1 & H2). exists (c, s). split; [done|].
    apply elem_of_map_to_list. by apply map_lookup_filter_Some.
Qed.

Lemma server_eta srv cid s :
  srv_conns srv !! cid = Some s →
  {| srv_conns := <[cid := s]> (srv_conns srv); srv_db := srv_db srv |} = srv.
Proof. intros H. destruct srv as [conns db]. simpl in *. by rewrite insert_id. Qed.

Lemma ctx_eta c : {| ctx_sock := ctx_sock c; ctx_db := ctx_db c |} = c.
Proof. by destruct c. Qed.

Lemma updateElement_unknown w elementId updates now :
  (∀ e, e ∈ elements w → e_id e ≠ Some elementId) →
  updateElement w elementId updates now = None.
Proof.
  intros H. unfold updateElement.
  destruct (list_find _ _) as [[i e]|] eqn:Hfind; [|done].
  apply list_find_Some in Hfind as (Hi & He & _).
  exfalso. eapply H; [|exact He]. eapply list_elem_of_lookup_2. exact Hi.
Qed.

(** ** Whiteboard element events *)

(** C3. When the whiteboard named by the event resolves to a stored document
    and [elementId] matches none of its elements, the only thing delivered is
    one [error] event to the sender, no action addresses a room, and the
    server state (the stored whiteboard included) is unchanged. *)
Theorem element_update_unknown_id srv cid s wid elementId updates now rnd w :
  srv_conns srv !! cid = Some s →
  findById castable (whiteboards (srv_db srv)) wid = Some (Some w) →
  (∀ e, e ∈ elements w → e_id e ≠ elementId) →
  ∃ acts msg,
    receive castable srv cid
      (WhiteboardElementUpdate (Some wid) elementId updates) now rnd
    = Some (srv, acts, [(cid, EvError msg)]) ∧
    (∀ a, a ∈ acts → a = EmitSelf (EvError msg) ∨ ∃ l e, a = ConsoleError l e) ∧
    whiteboards (srv_db srv) !! wid = Some w.
Proof.
  intros Hs Hfind Hnone.
  assert (whiteboards (srv_db srv) !! wid = Some w) as Hw.
  { unfold findById in Hfind. destruct (castable wid); congruence. }
  unfold receive. rewrite Hs. simpl.
  unfold on_whiteboard_element_update.
  destruct elementId as [eid|], updates as [upd|];
    try (eexists _, _; split;
         [unfold try_catch, socket_emit, act; simpl; by rewrite server_eta
         | split; [|done]; intros a Ha; apply list_elem_of_singleton in Ha; eauto]).
  destruct (negb (truthy (Some wid)) || negb (truthy (Some eid))) eqn:Hguard.
  - eexists _, _; split;
      [unfold try_catch, socket_emit, act; simpl; by rewrite server_eta|].
    split; [|done]. intros a Ha; apply list_elem_of_singleton in Ha; eauto.
  - unfold try_catch, mbind, M_bind, bindM, Whiteboard_findById. simpl.
    rewrite Hfind. simpl.
    rewrite updateElement_unknown; [|done]. simpl.
    eexists _, _. split; [by rewrite server_eta|]. split; [|done].
    intros a Ha. rewrite !elem_of_cons in Ha.
    destruct Ha as [->|[->|Ha]]; eauto. by apply not_elem_of_nil in Ha.
Qed.

(** C10 (as the code has it). A [join-whiteboard] whose non-empty id
    resolves to no stored document still joins the room of that id and
    records the id as the socket's whiteboard; the store is untouched, no
    [whiteboard-state] reaches the sender and nothing is broadcast to the
    room.  Whether the sender gets an [error] depends on why the id does not
    resolve: if it is a well-formed document id that names no document,
    [findById] yields [null] and the handler performs no action at all; if
    it is not a well-formed document id, [findById] throws after the join,
    the [catch] block logs the failure and the sender, and only the sender,
    is sent the [error] event 'Failed to join whiteboard'. *)
Theorem join_unresolved_whiteboard srv cid s wid now rnd :
  srv_conns srv !! cid = Some s →
  wid ≠ "" →
  (∀ w, findById castable (whiteboards (srv_db srv)) wid ≠ Some (Some w)) →
  ∃ acts out,
    receive castable srv cid (JoinWhiteboard (Some wid)) now rnd
    = Some ({| srv_conns :=
                 <[cid := {| s_user := s_user s;
                             s_rooms := s_rooms s ∪ {[ whiteboard_room wid ]};
                             s_projectId := s_projectId s;
                             s_whiteboardId := Some wid;
                             s_chatId := s_chatId s |}]> (srv_conns srv);
               srv_db := srv_db srv |}, acts, out) ∧
    uncaught castable srv cid (JoinWhiteboard (Some wid)) now rnd = None ∧
    if castable wid
    then acts = [] ∧ out = []
    else acts = [ConsoleError "Error joining whiteboard:" "CastError";
                 EmitSelf (EvError "Failed to join whiteboard")] ∧
         out = [(cid, EvError "Failed to join whiteboard")].
Proof.
  intros Hs Hne Hfind. unfold receive, uncaught. rewrite Hs. simpl.
  unfold on_join_whiteboard, truthy. rewrite bool_decide_eq_false_2; [|done]. simpl.
  unfold try_catch, mbind, M_bind, bindM, Whiteboard_findById. simpl.
  revert Hfind. unfold findById. destruct (castable wid); intros Hfind.
  - destruct (whiteboards (srv_db srv) !! wid) as [w|] eqn:Hw.
    + by destruct (Hfind w).
    + simpl. by eexists _, _.
  - simpl. by eexists _, _.
Qed.

(** ** Which actions a handler can perform *)

Section EmitsOnly.

Variable P : Action → Prop.

Lemma emits_ret {A} (a : A) : emits_only P (mret a).
Proof. intros c. constructor. Qed.

Lemma emits_throw {A} err : emits_only P (@throw A err).
Proof. intros c. constructor. Qed.

Lemma emits_bind {A B} (m : M A) (k : A → M B) :
  emits_only P m → (∀ a, emits_only P (k a)) → emits_only P (m ≫= k).
Proof.
  intros Hm Hk c. unfold mbind, M_bind, bindM.
  specialize (Hm c). destruct (m c) as [[c1 o1] [a|e]]; simpl in *; [|done].
  specialize (Hk a c1). destruct (k a c1) as [[c2 o2] r]; simpl in *.
  by apply Forall_app.
Qed.

Lemma emits_try_catch (body : M unit) handler :
  emits_only P body → (∀ e, emits_only P (handler e)) →
  emits_only P (try_catch body handler).
Proof.
  intros Hm Hk c. unfold try_catch.
  specialize (Hm c). destruct (body c) as [[c1 o1] [a|e]]; simpl in *; [done|].
  specialize (Hk e c1). destruct (handler e c1) as [[c2 o2] r]; simpl in *.
  by apply Forall_app.
Qed.

Lemma emits_act a : P a → emits_only P (act a).
Proof. intros Ha c. simpl. by repeat constructor. Qed.

Lemma emits_socket_user : emits_only P socket_user.
Proof. intros c. constructor. Qed.

Lemma emits_socket_get : emits_only P socket_get.
Proof. intros c. constructor. Qed.

Lemma emits_modify_socket f : emits_only P (modify_socket f).
Proof. intros c. constructor. Qed.

Lemma emits_Whiteboard_findById id : emits_only P (Whiteboard_findById castable id).
Proof. intros c. unfold Whiteboard_findById. destruct (findById _ _ _); constructor. Qed.

Lemma emits_Chat_findById id : emits_only P (Chat_findById castable id).
Proof. intros c. unfold Chat_findById. destruct (findById _ _ _); constructor. Qed.

Lemma emits_Whiteboard_save id doc : emits_only P (Whiteboard_save id doc).
Proof. intros c. unfold Whiteboard_save. destruct (forallb _ _); constructor. Qed.

Lemma emits_Chat_save id doc now : emits_only P (Chat_save id doc now).
Proof. intros c. unfold Chat_save. destruct (forallb _ _); constructor. Qed.

Lemma emits_or_throw {A} (r : option A) err : emits_only P (or_throw r err).
Proof. destruct r; [apply emits_ret | apply emits_throw]. Qed.

End EmitsOnly.

Create HintDb emits.
#[local] Hint Resolve emits_ret emits_throw emits_socket_user emits_socket_get
  emits_modify_socket emits_Whiteboard_findById emits_Chat_findById
  emits_Whiteboard_save emits_Chat_save emits_or_throw : emits.

Ltac emits_step tac :=
  first
    [ apply emits_try_catch
    | apply emits_bind
    | apply emits_act; tac
    | progress (unfold socket_emit, socket_to, io_to, console_error,
                socket_join, socket_leave, set_projectId, set_whiteboardId,
                set_chatId)
    | solve [auto with emits]
    | case_match ].

Ltac emits tac := repeat (intros; emits_step tac).

Ltac unfold_handlers :=
  unfold on_join_project, on_leave_project, on_join_whiteboard,
    on_whiteboard_element_add, on_whiteboard_element_update,
    on_whiteboard_element_remove, on_whiteboard_cursor_update, on_join_chat,
    on_chat_message, on_chat_typing_start, on_chat_typing_stop,
    on_chat_typing, on_chat_message_read, on_user_presence_update,
    on_no_payload, destructure_undefined,
    on_disconnect, cleanup_whiteboard, cleanup_chat, cleanup_project.

Lemma handle_not_to_all now rnd ev :
  (∀ chatId content type attachments, ev ≠ ChatMessage chatId content type attachments) →
  emits_only not_to_all (handle castable now rnd ev).
Proof.
  intros Hev. destruct ev; simpl; try (by exfalso; eapply Hev);
    unfold_handlers; emits ltac:(by intros ??).
Qed.

Lemma on_disconnect_not_to_all now :
  emits_only not_to_all (on_disconnect castable now).
Proof. unfold_handlers; emits ltac:(by intros ??). Qed.

Lemma route_excl_skips_sender conns sender room ev c e :
  (c, e) ∈ route conns sender (ToRoomExcl room ev) → c ≠ sender.
Proof.
  simpl. rewrite list_elem_of_fmap. intros (c' & [= -> ->] & H).
  by apply list_elem_of_filter in H as [H _].
Qed.

Lemma sender_gets_only_own_emits conns sender acts e :
  Forall not_to_all acts →
  (sender, e) ∈ deliveries conns sender acts → EmitSelf e ∈ acts.
Proof.
  intros Hall. unfold deliveries. rewrite list_elem_of_bind.
  intros (a & Hr & Ha). destruct a as [e'|room e'|room e'|l err].
  - apply list_elem_of_singleton in Hr as [= ->]. done.
  - by apply route_excl_skips_sender in Hr.
  - rewrite Forall_forall in Hall. by destruct (Hall _ Ha room e').
  - by apply not_elem_of_nil in Hr.
Qed.

(** ** Chat events *)

(** C2. A [chat-message] with non-empty [chatId] and [content], from a
    connection in the chat's room, whose chat resolves and whose save passes
    validation, persists the message under a server-generated id and the
    server's timestamp and sends [chat-message-received] with that message
    through [io.to(room)]: every member of the room receives it, the sender
    included.  For every other inbound event, and for the disconnect, no
    action goes through [io.to]: whatever the sender itself receives comes
    from its own [socket.emit], never from a room broadcast. *)
Theorem chat_message_fanout :
  (∀ srv cid s chatId content type attachments now rnd cdoc,
     let message :=
       new_message {| md_id := None; md_content := content;
                      md_type := default "text" type;
                      md_attachments := default [] attachments;
                      md_sender := u_id (s_user s) |} now rnd in
     let received := ChatMessageReceived message (card (s_user s)) in
     srv_conns srv !! cid = Some s →
     chat_room chatId ∈ s_rooms s →
     chatId ≠ "" → content ≠ "" →
     findById castable (chats (srv_db srv)) chatId = Some (Some cdoc) →
     forallb valid_message (messages cdoc ++ [message])%list = true →
     ∃ srv' out,
       receive castable srv cid
         (ChatMessage (Some chatId) (Some content) type attachments) now rnd
       = Some (srv', [ToRoomAll (chat_room chatId) received], out) ∧
       srv_conns srv' = srv_conns srv ∧
       (∃ saved, chats (srv_db srv') !! chatId = Some saved ∧
                 messages saved = (messages cdoc ++ [message])%list) ∧
       m_id message = generated_message_id now rnd ∧
       m_createdAt message = now ∧
       (∀ c, c ∈ members (srv_conns srv) (chat_room chatId) → (c, received) ∈ out) ∧
       (cid, received) ∈ out) ∧
  (∀ srv cid ev now rnd srv' acts out,
     (∀ chatId content type attachments,
        ev ≠ ChatMessage chatId content type attachments) →
     receive castable srv cid ev now rnd = Some (srv', acts, out) →
     Forall not_to_all acts ∧ ∀ e, (cid, e) ∈ out → EmitSelf e ∈ acts) ∧
  (∀ srv cid now srv' acts out,
     disconnect castable srv cid now = Some (srv', acts, out) →
     Forall not_to_all acts ∧ ∀ e, (cid, e) ∈ out → EmitSelf e ∈ acts).
Proof.
  split; [|split].
  - intros srv cid s chatId content type attachments now rnd cdoc message received
      Hs Hroom Hchat Hcontent Hfind Hvalid.
    assert (chats (srv_db srv) !! chatId = Some cdoc) as Hc.
    { unfold findById in Hfind. destruct (castable chatId); congruence. }
    unfold receive. rewrite Hs. simpl.
    unfold on_chat_message, truthy.
    rewrite !bool_decide_eq_false_2 by done. simpl.
    unfold try_catch, mbind, M_bind, bindM, Chat_findById, Chat_save. simpl.
    rewrite Hfind. simpl. fold message. rewrite Hvalid. simpl.
    rewrite Hc. simpl. unfold chat_pre_save. simpl. fold message.
    destruct (decide (messages cdoc = (messages cdoc ++ [message])%list)) as [Heq|_].
    { apply (f_equal length) in Heq. rewrite length_app in Heq. simpl in Heq. lia. }
    simpl. rewrite last_snoc. simpl. fold received.
    rewrite insert_id by done.
    eexists _, _. split; [reflexivity|]. simpl.
    split; [done|]. split.
    { eexists. rewrite lookup_insert_eq. split; [reflexivity|done]. }
    split; [done|]. split; [done|].
    assert (∀ c, c ∈ members (srv_conns srv) (chat_room chatId) →
                 (c, received) ∈ deliveries (srv_conns srv) cid
                                  [ToRoomAll (chat_room chatId) received]) as Hall.
    { intros c Hc'. unfold deliveries. simpl. rewrite app_nil_r.
      apply list_elem_of_fmap. eauto. }
    split; [exact Hall|]. apply Hall. apply elem_of_members. eauto.
  - intros srv cid ev now rnd srv' acts out Hev. unfold receive.
    destruct (srv_conns srv !! cid) as [s|]; [|done].
    pose proof (handle_not_to_all now rnd ev Hev {| ctx_sock := s; ctx_db := srv_db srv |}) as H.
    destruct (handle _ _ _ _ _) as [[c acts'] r]. simpl in H.
    intros [= <- <- <-]. split; [done|].
    intros e. by apply sender_gets_only_own_emits.
  - intros srv cid now srv' acts out. unfold disconnect.
    destruct (srv_conns srv !! cid) as [s|]; [|done].
    pose proof (on_disconnect_not_to_all now {| ctx_sock := s; ctx_db := srv_db srv |}) as H.
    destruct (on_disconnect _ _ _) as [[c acts'] r]. simpl in H.
    intros [= <- <- <-]. split; [done|].
    intros e. by apply sender_gets_only_own_emits.
Qed.

(** ** Request validation *)


(** ** Disconnect *)

Lemma cleanup_whiteboard_raise c c1 o1 e :
  cleanup_whiteboard castable c = (c1, o1, Raised e) → c1 = c ∧ o1 = [].
Proof.
  unfold cleanup_whiteboard, mbind, M_bind, bindM, Whiteboard_findById,
    Whiteboard_save. simpl.
  destruct (truthy _); simpl; [|done].
  destruct (findById _ _ _) as [[w|]|]; simpl; try done; [|by intros [= <- <- _]].
  destruct (forallb _ _); simpl; [done|]. by intros [= <- <- _].
Qed.

Lemma cleanup_chat_raise now c c2 o2 e :
  cleanup_chat castable now c = (c2, o2, Raised e) → c2 = c ∧ o2 = [].
Proof.
  unfold cleanup_chat, mbind, M_bind, bindM, Chat_findById, Chat_save. simpl.
  destruct (truthy _); simpl; [|done].
  destruct (findById _ _ _) as [[ch|]|]; simpl; try done; [|by intros [= <- <- _]].
  destruct (updateTypingStatus _ _ _) as [ch'|]; simpl; [|by intros [= <- <- _]].
  destruct (forallb _ _); simpl; [done|]. by intros [= <- <- _].
Qed.

Lemma cleanup_project_done now c :
  ∃ o3, cleanup_project now c = (c, o3, Done tt).
Proof.
  unfold cleanup_project, mbind, M_bind, bindM. simpl.
  destruct (truthy _); simpl; eauto.
Qed.

Lemma on_disconnect_eq now c :
  on_disconnect castable now c =
  match cleanup_whiteboard castable c with
  | (c1, o1, Raised e) =>
      (c1, (o1 ++ [ConsoleError "Error cleaning up socket disconnect:" e])%list, Done tt)
  | (c1, o1, Done _) =>
      match cleanup_chat castable now c1 with
      | (c2, o2, Raised e) =>
          (c2, (o1 ++ o2 ++ [ConsoleError "Error cleaning up socket disconnect:" e])%list,
           Done tt)
      | (c2, o2, Done _) =>
          (c2, (o1 ++ o2 ++ (cleanup_project now c2).1.2)%list, Done tt)
      end
  end.
Proof.
  unfold on_disconnect, try_catch, mbind, M_bind, bindM.
  destruct (cleanup_whiteboard castable c) as [[c1 o1] [[]|e]]; [|done].
  destruct (cleanup_chat castable now c1) as [[c2 o2] [[]|e]].
  - destruct (cleanup_project_done now c2) as [o3 ->]. done.
  - simpl. by rewrite <-app_assoc.
Qed.

(** C5 (as the code has it). The three cleanups run in source order inside
    one [try] block.  The disconnect callback never throws and never emits to
    the departed client.  If the whiteboard cleanup throws, nothing has been
    changed or broadcast and the chat and project cleanups are skipped: only
    the error is logged.  If the chat cleanup throws, the whiteboard cleanup's
    effects stand, and the project cleanup is skipped.  When neither throws,
    all three are performed. *)
Theorem disconnect_cleanups_in_sequence now c :
  ∃ c' acts,
    on_disconnect castable now c = (c', acts, Done tt) ∧
    Forall no_self_emit acts ∧
    match cleanup_whiteboard castable c with
    | (c1, o1, Raised e) =>
        c' = c ∧ acts = [ConsoleError "Error cleaning up socket disconnect:" e]
    | (c1, o1, Done _) =>
        match cleanup_chat castable now c1 with
        | (c2, o2, Raised e) =>
            c' = c1 ∧
            acts = (o1 ++ [ConsoleError "Error cleaning up socket disconnect:" e])%list
        | (c2, o2, Done _) =>
            c' = c2 ∧ acts = (o1 ++ o2 ++ (cleanup_project now c2).1.2)%list
        end
    end.
Proof.
  assert (emits_only no_self_emit (on_disconnect castable now)) as Hemit.
  { unfold_handlers; emits ltac:(by intros ?). }
  specialize (Hemit c). rewrite on_disconnect_eq in Hemit |- *.
  destruct (cleanup_whiteboard castable c) as [[c1 o1] [[]|e]] eqn:Hw.
  - destruct (cleanup_chat castable now c1) as [[c2 o2] [[]|e]] eqn:Hc.
    + simpl in Hemit. eexists _, _. split; [reflexivity|]. by split.
    + apply cleanup_chat_raise in Hc as [-> ->]. simpl in Hemit |- *.
      eexists _, _. split; [reflexivity|]. by split.
  - apply cleanup_whiteboard_raise in Hw as [-> ->]. simpl in Hemit |- *.
    eexists _, _. split; [reflexivity|]. by split.
Qed.

(** ** Message edits *)

(** C6 (as the code has it). [updateMessage] never consults [isDeleted]: it
    throws 'Message not found' exactly when no message has the id; otherwise
    the first message with that id, deleted or not, takes every field that
    [updates] names (content, and also id, sender, type, attachments, read
    state, deleted flag, deletion and creation time), keeps the fields that
    [updates] leaves out, is marked edited at the current time whatever
    [updates] says of [isEdited] and [editedAt], and every other message is
    untouched. *)
Theorem updateMessage_ignores_isDeleted c messageId updates now :
  (updateMessage c messageId updates now = None ↔
   ∀ m, m ∈ messages c → m_id m ≠ messageId) ∧
  ∀ i m, list_find (msg_has_id messageId) (messages c) = Some (i, m) →
    ∃ c' m',
      updateMessage c messageId updates now = Some c' ∧
      messages c' = <[i := m']> (messages c) ∧
      messages c' !! i = Some m' ∧
      (∀ j, j ≠ i → messages c' !! j = messages c !! j) ∧
      m_content m' = default (m_content m) (mu_content updates) ∧
      m_id m' = default (m_id m) (mu_id updates) ∧
      m_isDeleted m' = default (m_isDeleted m) (mu_isDeleted updates) ∧
      m_isEdited m' = true ∧ m_editedAt m' = Some now ∧
      m_sender m' = default (m_sender m) (mu_sender updates) ∧
      m_createdAt m' = default (m_createdAt m) (mu_createdAt updates) ∧
      m_readBy m' = default (m_readBy m) (mu_readBy updates) ∧
      m_deletedAt m' = default (m_deletedAt m) (mu_deletedAt updates) ∧
      m_type m' = default (m_type m) (mu_type updates) ∧
      m_attachments m' = default (m_attachments m) (mu_attachments updates).
Proof.
  unfold updateMessage. split.
  - destruct (list_find _ _) as [[i m]|] eqn:Hfind.
    + split; [done|]. intros H. apply list_find_Some in Hfind as (Hi & Hm & _).
      exfalso. eapply H; [|exact Hm]. by eapply list_elem_of_lookup_2.
    + split; [|done]. intros _ m Hm. apply list_find_None in Hfind.
      rewrite Forall_forall in Hfind. by apply Hfind.
  - intros i m Hfind. rewrite Hfind. eexists _, _. split; [reflexivity|].
    simpl. split; [reflexivity|]. split; [|split; [|done]].
    + apply list_lookup_insert_eq. apply list_find_Some in Hfind as (Hi & _).
      by eapply lookup_lt_Some.
    + intros j Hj. by apply list_lookup_insert_ne.
Qed.

(** ** Element ids *)

(** C7 (as the code has it). A persisted [whiteboard-element-add] appends one
    element under the client's id when it gives a non-empty one and under a
    generated id otherwise; nothing checks the id against those present.  So
    the ids of the stored whiteboard are duplicate-free after the event exactly
    when they were before and the appended id is not among them. *)
Theorem element_add_ids srv cid s wid el now rnd w :
  srv_conns srv !! cid = Some s →
  wid ≠ "" →
  findById castable (whiteboards (srv_db srv)) wid = Some (Some w) →
  forallb valid_element
    (elements (addElement w (stamp_creator el (u_id (s_user s))) now rnd)) = true →
  ∃ srv' acts out w',
    receive castable srv cid (WhiteboardElementAdd (Some wid) (Some el)) now rnd
    = Some (srv', acts, out) ∧
    whiteboards (srv_db srv') !! wid = Some w' ∧
    e_id <$> elements w' = ((e_id <$> elements w) ++ [assigned_id el now rnd])%list ∧
    (NoDup (e_id <$> elements w') ↔
     NoDup (e_id <$> elements w) ∧ assigned_id el now rnd ∉ e_id <$> elements w).
Proof.
  intros Hs Hne Hfind Hvalid.
  assert (whiteboards (srv_db srv) !! wid = Some w) as Hw.
  { unfold findById in Hfind. destruct (castable wid); congruence. }
  unfold receive. rewrite Hs. simpl.
  unfold on_whiteboard_element_add, truthy.
  rewrite bool_decide_eq_false_2 by done. simpl.
  unfold try_catch, mbind, M_bind, bindM, Whiteboard_findById, Whiteboard_save. simpl.
  rewrite Hfind. simpl. simpl in Hvalid. rewrite Hvalid. simpl. rewrite Hw. simpl.
  eexists _, _, _, _. split; [reflexivity|]. simpl.
  split; [apply lookup_insert_eq|].
  assert (e_id <$> elements (whiteboard_pre_save w
            (addElement w (stamp_creator el (u_id (s_user s))) now rnd))
          = ((e_id <$> elements w) ++ [assigned_id el now rnd])%list) as Hids.
  { unfold whiteboard_pre_save. case_decide; simpl; by rewrite fmap_app. }
  split; [exact Hids|]. rewrite Hids, NoDup_app. split.
  - intros (Hnd & Hfresh & _). split; [done|]. intros Hin.
    apply (Hfresh _ Hin). by apply list_elem_of_singleton.
  - intros [Hnd Hfresh]. split; [done|]. split.
    + intros x Hx Hx'. apply list_elem_of_singleton in Hx' as ->. done.
    + apply NoDup_singleton.
Qed.

(** * Further properties of the handlers *)

(** ** Which exceptions leave a handler *)


Lemma never_raises_log_emit label msg e c :
  ((console_error label e;; socket_emit (EvError msg)) c).2 = Done tt.
Proof. done. Qed.


(** ** Who can receive an [error] event *)

Lemma handle_no_room_error now rnd ev :
  emits_only no_room_error (handle castable now rnd ev).
Proof.
  destruct ev; simpl; unfold_handlers; emits ltac:(by intros ??; split).
Qed.

Lemma on_disconnect_no_error now :
  emits_only no_error (on_disconnect castable now).
Proof.
  unfold_handlers; emits ltac:(by split; [intros ??; split | intros ?]).
Qed.

Lemma error_delivery conns sender acts c msg :
  (c, EvError msg) ∈ deliveries conns sender acts →
  ∃ a, a ∈ acts ∧
       (a = EmitSelf (EvError msg) ∧ c = sender ∨
        (∃ room, a = ToRoomExcl room (EvError msg)) ∨
        (∃ room, a = ToRoomAll room (EvError msg))).
Proof.
  unfold deliveries. rewrite list_elem_of_bind.
  intros (a & Hr & Ha). exists a. split; [done|].
  destruct a as [e'|room e'|room e'|l err]; simpl in Hr.
  - apply list_elem_of_singleton in Hr as [= -> <-]. by left.
  - apply list_elem_of_fmap in Hr as (c' & [= -> <-] & _). right. left. eauto.
  - apply list_elem_of_fmap in Hr as (c' & [= -> <-] & _). right. right. eauto.
  - by apply not_elem_of_nil in Hr.
Qed.

(** X2. An [error] event produced while handling a connection's event is
    delivered to that connection and to nobody else; the disconnect callback
    delivers no [error] event to anyone. *)
Theorem errors_reach_only_the_sender srv cid :
  (∀ ev now rnd srv' acts out c msg,
     receive castable srv cid ev now rnd = Some (srv', acts, out) →
     (c, EvError msg) ∈ out → c = cid) ∧
  (∀ now srv' acts out c msg,
     disconnect castable srv cid now = Some (srv', acts, out) →
     (c, EvError msg) ∉ out).
Proof.
  split.
  - intros ev now rnd srv' acts out c msg. unfold receive.
    destruct (srv_conns srv !! cid) as [s|]; [|done].
    pose proof (handle_no_room_error now rnd ev
                  {| ctx_sock := s; ctx_db := srv_db srv |}) as H.
    destruct (handle _ _ _ _ _) as [[c' acts'] r]. simpl in H.
    intros [= <- <- <-] Hin.
    apply error_delivery in Hin as (a & Ha & [[_ ->]|[[room ->]|[room ->]]]); [done| |];
      rewrite Forall_forall in H; by destruct (H _ Ha room msg).
  - intros now srv' acts out c msg. unfold disconnect.
    destruct (srv_conns srv !! cid) as [s|]; [|done].
    pose proof (on_disconnect_no_error now
                  {| ctx_sock := s; ctx_db := srv_db srv |}) as H.
    destruct (on_disconnect _ _ _) as [[c' acts'] r]. simpl in H.
    intros [= <- <- <-] Hin. rewrite Forall_forall in H.
    apply error_delivery in Hin as (a & Ha & [[-> _]|[[room ->]|[room ->]]]).
    + by destruct (H _ Ha) as [_ H2]; destruct (H2 msg).
    + by destruct (H _ Ha) as [H1 _]; destruct (H1 room msg).
    + by destruct (H _ Ha) as [H1 _]; destruct (H1 room msg).
Qed.

(** ** Room membership *)

Lemma rooms_ret {A} (a : A) : keeps_rooms (mret a).
Proof. by intros c. Qed.

Lemma rooms_throw {A} err : keeps_rooms (@throw A err).
Proof. by intros c. Qed.

Lemma rooms_bind {A B} (m : M A) (k : A → M B) :
  keeps_rooms m → (∀ a, keeps_rooms (k a)) → keeps_rooms (m ≫= k).
Proof.
  clear jwt_verify castable.
  intros Hm Hk c. unfold mbind, M_bind, bindM.
  specialize (Hm c). destruct (m c) as [[c1 o1] [a|e]]; simpl in *; [|done].
  specialize (Hk a c1). destruct (k a c1) as [[c2 o2] r]; simpl in *.
  set_solver.
Qed.

Lemma rooms_try_catch (body : M unit) handler :
  keeps_rooms body → (∀ e, keeps_rooms (handler e)) →
  keeps_rooms (try_catch body handler).
Proof.
  clear jwt_verify castable.
  intros Hm Hk c. unfold try_catch.
  specialize (Hm c). destruct (body c) as [[c1 o1] [a|e]]; simpl in *; [done|].
  specialize (Hk e c1). destruct (handler e c1) as [[c2 o2] r]; simpl in *.
  set_solver.
Qed.

Lemma rooms_act a : keeps_rooms (act a).
Proof. by intros c. Qed.

Lemma rooms_socket_user : keeps_rooms socket_user.
Proof. by intros c. Qed.

Lemma rooms_socket_get : keeps_rooms socket_get.
Proof. by intros c. Qed.

Lemma rooms_modify_socket f :
  (∀ s, s_rooms s ⊆ s_rooms (f s)) → keeps_rooms (modify_socket f).
Proof. intros Hf c. simpl. apply Hf. Qed.

Lemma rooms_Whiteboard_findById id : keeps_rooms (Whiteboard_findById castable id).
Proof. intros c. unfold Whiteboard_findById. by destruct (findById _ _ _). Qed.

Lemma rooms_Chat_findById id : keeps_rooms (Chat_findById castable id).
Proof. intros c. unfold Chat_findById. by destruct (findById _ _ _). Qed.

Lemma rooms_Whiteboard_save id doc : keeps_rooms (Whiteboard_save id doc).
Proof. intros c. unfold Whiteboard_save. by destruct (forallb _ _). Qed.

Lemma rooms_Chat_save id doc now : keeps_rooms (Chat_save id doc now).
Proof. intros c. unfold Chat_save. by destruct (forallb _ _). Qed.

Lemma rooms_or_throw {A} (r : option A) err : keeps_rooms (or_throw r err).
Proof. destruct r; [apply rooms_ret | apply rooms_throw]. Qed.

Create HintDb rooms.
#[local] Hint Resolve rooms_ret rooms_throw rooms_act rooms_socket_user
  rooms_socket_get rooms_Whiteboard_findById rooms_Chat_findById
  rooms_Whiteboard_save rooms_Chat_save rooms_or_throw : rooms.

Ltac rooms_step :=
  first
    [ apply rooms_try_catch
    | apply rooms_bind
    | apply rooms_modify_socket; intros []; simpl; set_solver
    | progress (unfold socket_emit, socket_to, io_to, console_error,
                socket_join, set_projectId, set_whiteboardId, set_chatId)
    | solve [auto with rooms]
    | case_match ].

Ltac rooms := repeat (intros; rooms_step).

Lemma handle_keeps_rooms now rnd ev :
  (∀ projectId, ev ≠ LeaveProject projectId) →
  keeps_rooms (handle castable now rnd ev).
Proof.
  clear jwt_verify.
  intros Hev. destruct ev; simpl; try (by exfalso; eapply Hev);
    unfold_handlers; rooms.
Qed.

(** X3. [leave-project] is the only event that takes a connection out of a
    room, and the only room it can take it out of is the room of the project
    it names: after any other event the connection is still in every room it
    was in (switching whiteboard or chat leaves the previous room joined). *)
Theorem only_leave_project_leaves_a_room srv cid s ev now rnd srv' acts out room :
  srv_conns srv !! cid = Some s →
  receive castable srv cid ev now rnd = Some (srv', acts, out) →
  room ∈ s_rooms s →
  (∃ s', srv_conns srv' !! cid = Some s' ∧ room ∈ s_rooms s') ∨
  (∃ projectId, ev = LeaveProject (Some projectId) ∧ room = project_room projectId).
Proof.
  clear jwt_verify.
  intros Hs Hrecv Hroom. unfold receive in Hrecv. rewrite Hs in Hrecv.
  destruct ev as [p|p|w|w e|w i u|w i|w cu|ch|ch co ty at'|ch|ch|ch mi|st p|l];
    try (left;
         match type of Hrecv with
         | context [handle _ _ _ ?ev _] =>
             assert (∀ projectId, ev ≠ LeaveProject projectId) as Hev by done;
             pose proof (handle_keeps_rooms now rnd ev Hev
                           {| ctx_sock := s; ctx_db := srv_db srv |}) as Hk
         end;
         destruct (handle _ _ _ _ _) as [[c' acts'] r]; simpl in Hk;
         injection Hrecv as <- <- <-; eexists; split;
         [cbn; apply lookup_insert_eq | set_solver]).
  simpl in Hrecv. unfold on_leave_project, mbind, M_bind, bindM in Hrecv.
  simpl in Hrecv.
  destruct (truthy p && bool_decide (s_projectId s = p)) eqn:Hguard; simpl in Hrecv;
    injection Hrecv as <- <- <-.
  - destruct p as [p|]; [|done]. simpl.
    destruct (decide (room = project_room p)) as [->|Hne].
    + right. eauto.
    + left. eexists. split; [cbn; apply lookup_insert_eq|]. simpl. set_solver.
  - left. eexists. split; [cbn; apply lookup_insert_eq|]. done.
Qed.

(** ** Project rooms *)

Lemma receive_join_project srv cid s p now rnd :
  srv_conns srv !! cid = Some s → p ≠ "" →
  receive castable srv cid (JoinProject (Some p)) now rnd
  = Some (let conns :=
            <[cid := {| s_user := s_user s;
                        s_rooms := s_rooms s ∪ {[ project_room p ]}
                                             ∪ {[ user_projects_room (u_id (s_user s)) ]};
                        s_projectId := Some p;
                        s_whiteboardId := s_whiteboardId s;
                        s_chatId := s_chatId s |}]> (srv_conns srv) in
          ({| srv_conns := conns; srv_db := srv_db srv |},
           [ToRoomExcl (project_room p) (UserJoinedProject (card (s_user s)) now)],
           deliveries conns cid
             [ToRoomExcl (project_room p) (UserJoinedProject (card (s_user s)) now)])).
Proof.
  intros Hs Hp. unfold receive. rewrite Hs. simpl.
  unfold on_join_project, truthy. by rewrite bool_decide_eq_false_2.
Qed.

(** X4. Joining a project the connection has already joined leaves its rooms
    and its current project as they were after the first join; the room is
    nevertheless told again that the user joined. *)
Theorem join_project_again srv cid s p now rnd now' rnd' :
  srv_conns srv !! cid = Some s →
  p ≠ "" →
  ∃ srv1 out1 out2,
    receive castable srv cid (JoinProject (Some p)) now rnd
    = Some (srv1,
            [ToRoomExcl (project_room p) (UserJoinedProject (card (s_user s)) now)],
            out1) ∧
    receive castable srv1 cid (JoinProject (Some p)) now' rnd'
    = Some (srv1,
            [ToRoomExcl (project_room p) (UserJoinedProject (card (s_user s)) now')],
            out2).
Proof.
  clear jwt_verify.
  intros Hs Hp. eexists _, _, _. split; [by apply receive_join_project|].
  erewrite receive_join_project; [|cbn; apply lookup_insert_eq|done].
  cbn. rewrite insert_insert_eq.
  replace (s_rooms s ∪ {[project_room p]} ∪ {[user_projects_room (u_id (s_user s))]}
             ∪ {[project_room p]} ∪ {[user_projects_room (u_id (s_user s))]})
    with (s_rooms s ∪ {[project_room p]} ∪ {[user_projects_room (u_id (s_user s))]})
    by set_solver.
  reflexivity.
Qed.

Lemma leave_other_project srv cid s p now rnd :
  srv_conns srv !! cid = Some s →
  s_projectId s ≠ Some p →
  receive castable srv cid (LeaveProject (Some p)) now rnd = Some (srv, [], []).
Proof.
  intros Hs Hp. unfold receive. rewrite Hs. simpl.
  unfold on_leave_project, mbind, M_bind, bindM. simpl.
  rewrite (bool_decide_eq_false_2 (s_projectId s = Some p)) by done.
  rewrite andb_false_r. simpl. by rewrite server_eta.
Qed.

(** X5. [leave-project] for a project that is not the connection's current
    one, whether it was never joined or a later [join-project] has replaced
    it, does nothing: no room is left, nothing is emitted, nothing is
    broadcast. *)
Theorem leave_project_not_current srv cid s p now rnd :
  srv_conns srv !! cid = Some s →
  s_projectId s ≠ Some p →
  receive castable srv cid (LeaveProject (Some p)) now rnd = Some (srv, [], []).
Proof.
  intros Hs Hp. unfold receive. rewrite Hs. simpl.
  unfold on_leave_project, mbind, M_bind, bindM. simpl.
  destruct (bool_decide (s_projectId s = Some p)) eqn:Hcur.
  - apply bool_decide_eq_true_1 in Hcur. contradiction.
  - rewrite andb_false_r. simpl. by rewrite server_eta.
Qed.

(** X6. Joining a project and then leaving it takes the connection out of
    the project's room and clears its current project, tells the rest of the
    room that the user left, and leaves the connection in the
    [user_projects_] room that the join added. *)
Theorem join_then_leave_project srv cid s p now rnd now' rnd' :
  srv_conns srv !! cid = Some s →
  p ≠ "" →
  ∃ srv1 out1 srv2 out2 s2,
    receive castable srv cid (JoinProject (Some p)) now rnd
    = Some (srv1,
            [ToRoomExcl (project_room p) (UserJoinedProject (card (s_user s)) now)],
            out1) ∧
    receive castable srv1 cid (LeaveProject (Some p)) now' rnd'
    = Some (srv2,
            [ToRoomExcl (project_room p) (UserLeftProject (brief (s_user s)) now')],
            out2) ∧
    srv_conns srv2 !! cid = Some s2 ∧
    s_projectId s2 = None ∧
    (project_room p ∉ s_rooms s2) ∧
    user_projects_room (u_id (s_user s)) ∈ s_rooms s2 ∧
    (∀ room, room ∈ s_rooms s → room ≠ project_room p → room ∈ s_rooms s2).
Proof.
  clear jwt_verify.
  intros Hs Hp. eexists _, _, _, _, _.
  split; [by apply receive_join_project|].
  unfold receive at 1. cbn. rewrite lookup_insert_eq. cbn.
  unfold on_leave_project, mbind, M_bind, bindM, truthy. cbn.
  rewrite (bool_decide_eq_false_2 (p = "")) by done.
  rewrite (bool_decide_eq_true_2 (Some p = Some p)) by done. cbn.
  split; [reflexivity|]. cbn. rewrite lookup_insert_eq.
  split; [reflexivity|]. cbn. split; [done|].
  split; [set_solver|]. split; [|set_solver].
  apply elem_of_difference. split; [set_solver|].
  intros Heq. apply elem_of_singleton in Heq.
  unfold user_projects_room, project_room in Heq. discriminate.
Qed.

(** X7. Once a second [join-project] has replaced the current project, the
    first project can no longer be left: the [leave-project] naming it is
    ignored and the connection stays in the first project's room. *)
Theorem superseded_project_stays_joined srv cid s p q now rnd :
  srv_conns srv !! cid = Some s →
  p ≠ "" → q ≠ "" → p ≠ q →
  ∃ srv1 acts1 out1 srv2 acts2 out2 s2,
    receive castable srv cid (JoinProject (Some p)) now rnd = Some (srv1, acts1, out1) ∧
    receive castable srv1 cid (JoinProject (Some q)) now rnd = Some (srv2, acts2, out2) ∧
    receive castable srv2 cid (LeaveProject (Some p)) now rnd = Some (srv2, [], []) ∧
    srv_conns srv2 !! cid = Some s2 ∧
    project_room p ∈ s_rooms s2 ∧
    s_projectId s2 = Some q.
Proof.
  clear jwt_verify.
  intros Hs Hp Hq Hpq. eexists _, _, _, _, _, _, _.
  split; [by apply receive_join_project|].
  split; [apply receive_join_project; [cbn; apply lookup_insert_eq|done]|].
  cbn. split.
  - eapply leave_other_project.
    + cbn. apply lookup_insert_eq.
    + cbn. congruence.
  - rewrite lookup_insert_eq. split; [reflexivity|]. cbn. split; [set_solver|done].
Qed.

(** * Further properties of the models *)

(** ** Lists: [find] followed by an in-place update, and [filter] *)

Lemma list_find_insert_same {A} (P : A → Prop) `{!∀ x, Decision (P x)}
    (l : list A) i x y :
  list_find P l = Some (i, x) → P y → list_find P (<[i := y]> l) = Some (i, y).
Proof.
  intros Hfind Hy. apply list_find_Some in Hfind as (Hi & Hx & Hleast).
  apply list_find_insert_Some. right. left.
  split_and!; [done..| by eapply lookup_lt_Some | done | done].
Qed.

Lemma filter_insert_dropped {A} (P : A → Prop) `{!∀ x, Decision (P x)}
    (l : list A) i x y :
  l !! i = Some x → ¬ P x → ¬ P y → filter P (<[i := y]> l) = filter P l.
Proof.
  revert i. induction l as [|z l IH]; intros i Hi Hx Hy; [done|].
  destruct i as [|i]; simpl in *.
  - injection Hi as ->. by rewrite !filter_cons_False.
  - rewrite !filter_cons. by rewrite (IH i).
Qed.

Lemma filter_all {A} (P : A → Prop) `{!∀ x, Decision (P x)} (l : list A) :
  Forall P l → filter P l = l.
Proof.
  induction 1 as [|x l Hx Hl IH]; [done|]. by rewrite filter_cons_True, IH.
Qed.

(** ** Whiteboard presence *)

Lemma updateCollaboratorCursor_users w userId cursor now :
  col_user <$> collaborators (updateCollaboratorCursor w userId cursor now)
  = match list_find (is_user userId) (collaborators w) with
    | Some _ => col_user <$> collaborators w
    | None => ((col_user <$> collaborators w) ++ [userId])%list
    end.
Proof.
  unfold updateCollaboratorCursor. simpl.
  destruct (list_find _ _) as [[i x]|] eqn:Hfind.
  - apply list_find_Some in Hfind as (Hi & Hx & _).
    rewrite list_fmap_insert. simpl. apply list_insert_id.
    rewrite list_lookup_fmap, Hi. simpl. by rewrite Hx.
  - by rewrite fmap_app.
Qed.

Lemma updateCollaboratorCursor_find w userId cursor now :
  ∃ i, list_find (is_user userId)
         (collaborators (updateCollaboratorCursor w userId cursor now))
       = Some (i, {| col_user := userId; col_cursor := cursor;
                     col_lastActive := now |}).
Proof.
  unfold updateCollaboratorCursor. simpl.
  destruct (list_find (is_user userId) (collaborators w)) as [[i x]|] eqn:Hfind.
  - exists i. by eapply list_find_insert_same.
  - exists (length (collaborators w)). apply list_find_app_Some. right.
    split; [lia|]. split; [done|]. rewrite Nat.sub_diag. simpl.
    by rewrite decide_True.
Qed.

(** X8. The presence list of a whiteboard holds each user at most once, and
    [updateCollaboratorCursor] and [removeCollaborator] keep it so: the cursor
    update overwrites the user's entry or appends one, after which the user's
    entry carries the new cursor and time; [removeCollaborator] leaves no
    entry of the user and keeps every other entry. *)
Theorem presence_entries_stay_unique w userId cursor now :
  NoDup (col_user <$> collaborators w) →
  NoDup (col_user <$> collaborators (updateCollaboratorCursor w userId cursor now)) ∧
  NoDup (col_user <$> collaborators (removeCollaborator w userId)) ∧
  (∃ i, list_find (is_user userId)
          (collaborators (updateCollaboratorCursor w userId cursor now))
        = Some (i, {| col_user := userId; col_cursor := cursor;
                      col_lastActive := now |})) ∧
  (userId ∉ col_user <$> collaborators (removeCollaborator w userId)) ∧
  (∀ c, c ∈ collaborators w → col_user c ≠ userId →
        c ∈ collaborators (removeCollaborator w userId)).
Proof.
  intros Hnd. split_and!.
  - rewrite updateCollaboratorCursor_users.
    destruct (list_find _ _) as [[i x]|] eqn:Hfind; [done|].
    apply NoDup_app. split; [done|]. split; [|apply NoDup_singleton].
    intros u Hu Hu'. apply list_elem_of_singleton in Hu' as ->.
    apply list_find_None in Hfind. rewrite Forall_forall in Hfind.
    apply list_elem_of_fmap in Hu as (c & Hc & Hin). by apply (Hfind c).
  - simpl. revert Hnd. generalize (collaborators w). intros l.
    induction l as [|c l IH]; [done|]. rewrite fmap_cons, NoDup_cons.
    intros [Hc Hl]. rewrite filter_cons. case_decide; [|by apply IH].
    rewrite fmap_cons, NoDup_cons. split; [|by apply IH].
    intros Hin. apply Hc. apply list_elem_of_fmap in Hin as (c' & -> & Hin).
    apply list_elem_of_fmap. exists c'. split; [done|].
    by apply list_elem_of_filter in Hin as [_ ?].
  - apply updateCollaboratorCursor_find.
  - simpl. intros Hin. apply list_elem_of_fmap in Hin as (c & Hc & Hin).
    apply list_elem_of_filter in Hin as [Hn _]. by apply Hn.
  - intros c Hc Hne. simpl. apply list_elem_of_filter. split; [|done].
    unfold is_user. done.
Qed.

(** X9. Recording a cursor for a user and then removing the user leaves the
    whiteboard as removing the user alone does; when the user had no presence
    entry, the whiteboard is back to what it was. *)
Theorem cursor_then_remove w userId cursor now :
  removeCollaborator (updateCollaboratorCursor w userId cursor now) userId
  = removeCollaborator w userId ∧
  (userId ∉ col_user <$> collaborators w →
   removeCollaborator (updateCollaboratorCursor w userId cursor now) userId = w).
Proof.
  assert (removeCollaborator (updateCollaboratorCursor w userId cursor now) userId
          = removeCollaborator w userId) as Heq.
  { unfold removeCollaborator, updateCollaboratorCursor. simpl. f_equal.
    destruct (list_find _ _) as [[i x]|] eqn:Hfind.
    - apply list_find_Some in Hfind as (Hi & Hx & _).
      eapply filter_insert_dropped; [done| |]; intros Hn; by apply Hn.
    - rewrite filter_app, filter_cons_False, filter_nil, app_nil_r; [done|].
      intros Hn. by apply Hn. }
  split; [done|]. intros Hout. rewrite Heq.
  destruct w as [es cs v]. unfold removeCollaborator. simpl in *. f_equal.
  apply filter_all. apply Forall_forall. intros c Hc Hu.
  apply Hout. apply list_elem_of_fmap. by exists c.
Qed.

(** ** Whiteboard elements *)

Lemma assigned_id_Some el now rnd : ∃ id, assigned_id el now rnd = Some id.
Proof.
  unfold assigned_id. destruct (e_id el) as [id|]; simpl; [|eauto].
  destruct (negb _); eauto.
Qed.

(** X10. An element that has just been added can be updated under the id
    [addElement] gave it: [updateElement] does not throw, and the whiteboard
    keeps its number of elements.  When that id was not in use before, the
    element updated is the new one, at the end of the list. *)
Theorem add_then_update w el now rnd updates now' :
  ∃ id w',
    assigned_id el now rnd = Some id ∧
    updateElement (addElement w el now rnd) id updates now' = Some w' ∧
    length (elements w') = S (length (elements w)) ∧
    (Some id ∉ e_id <$> elements w →
     ∃ added, elements (addElement w el now rnd) = (elements w ++ [added])%list ∧
              elements w' = (elements w ++ [assign_element added updates now'])%list).
Proof.
  destruct (assigned_id_Some el now rnd) as [id Hid]. exists id.
  unfold updateElement.
  destruct (list_find (has_id id) (elements (addElement w el now rnd)))
    as [[i x]|] eqn:Hfind.
  - eexists. split; [done|]. split; [reflexivity|]. simpl.
    split; [by rewrite length_insert, length_app, Nat.add_comm|].
    intros Hfresh. eexists. split; [reflexivity|].
    simpl in Hfind. apply list_find_app_Some in Hfind as [Hfind|(Hle & _ & Hfind)].
    + apply list_find_Some in Hfind as (Hi & Hx & _). exfalso. apply Hfresh.
      apply list_elem_of_fmap. exists x. split; [by rewrite Hx|].
      by eapply list_elem_of_lookup_2.
    + apply list_find_Some in Hfind as (Hi & _).
      destruct (i - length (elements w)) as [|k] eqn:Hk; [|done].
      simpl in Hi. injection Hi as <-.
      assert (i = length (elements w)) as -> by lia.
      by rewrite insert_app_r_alt, Nat.sub_diag by lia.
  - exfalso. apply list_find_None in Hfind. simpl in Hfind.
    apply Forall_app in Hfind as [_ Hfind]. rewrite Forall_singleton in Hfind.
    apply Hfind. unfold has_id. simpl. done.
Qed.

(** X11. [removeElement] removes every element carrying the id and nothing
    else: afterwards no element has the id and an update under it throws
    'Element not found'; elements with another id are all kept, in order; a
    second removal changes nothing. *)
Theorem removeElement_removes_exactly w elementId :
  Forall (λ e, e_id e ≠ Some elementId) (elements (removeElement w elementId)) ∧
  (∀ updates now, updateElement (removeElement w elementId) elementId updates now = None) ∧
  filter (λ e, e_id e ≠ Some elementId) (elements (removeElement w elementId))
  = filter (λ e, e_id e ≠ Some elementId) (elements w) ∧
  removeElement (removeElement w elementId) elementId = removeElement w elementId.
Proof.
  assert (Forall (λ e, e_id e ≠ Some elementId)
            (elements (removeElement w elementId))) as Hall.
  { apply Forall_forall. intros e He. simpl in He.
    by apply list_elem_of_filter in He as [He _]. }
  split_and!; [done| | |].
  - intros updates now. apply updateElement_unknown.
    rewrite Forall_forall in Hall. exact Hall.
  - simpl. apply filter_all. apply Forall_forall. intros e He.
    by apply list_elem_of_filter in He as [He _].
  - unfold removeElement at 1. simpl. destruct w as [es cs v]. simpl.
    unfold removeElement. simpl. f_equal. apply filter_all.
    apply Forall_forall. intros e He. by apply list_elem_of_filter in He as [He _].
Qed.

(** X12. Removing the element that was just added, under the id
    [addElement] gave it, also removes every older element with that id; when
    the id was not in use before, the element list is back to what it was. *)
Theorem add_then_remove w el now rnd :
  ∃ id,
    assigned_id el now rnd = Some id ∧
    elements (removeElement (addElement w el now rnd) id)
    = elements (removeElement w id) ∧
    (Some id ∉ e_id <$> elements w →
     elements (removeElement (addElement w el now rnd) id) = elements w).
Proof.
  destruct (assigned_id_Some el now rnd) as [id Hid]. exists id.
  assert (elements (removeElement (addElement w el now rnd) id)
          = elements (removeElement w id)) as Heq.
  { simpl. rewrite filter_app, filter_cons_False, filter_nil, app_nil_r; [done|].
    intros Hn. apply Hn. unfold has_id. simpl. done. }
  split; [done|]. split; [done|]. intros Hfresh. rewrite Heq. simpl.
  apply filter_all. apply Forall_forall. intros e He Hid'.
  apply Hfresh. apply list_elem_of_fmap. exists e. split; [by rewrite Hid'|done].
Qed.

(** ** Chat messages *)

Lemma filter_none {A} (P : A → Prop) `{!∀ x, Decision (P x)} (l : list A) :
  Forall (λ x, ¬ P x) l → filter P l = [].
Proof.
  induction 1 as [|x l Hx Hl IH]; [done|]. by rewrite filter_cons_False.
Qed.

(** X13. [deleteMessage] is a soft delete.  It throws exactly when no message
    has the id.  Otherwise every message stays in place with its id and its
    content, the first message with the id is flagged deleted at the given
    time, it no longer shows among the non-deleted messages when ids are
    unique, and deleting it once more is accepted again. *)
Theorem deleteMessage_is_soft c messageId now :
  (deleteMessage c messageId now = None ↔
   ∀ m, m ∈ messages c → m_id m ≠ messageId) ∧
  ∀ c', deleteMessage c messageId now = Some c' →
    m_id <$> messages c' = m_id <$> messages c ∧
    m_content <$> messages c' = m_content <$> messages c ∧
    (∃ i m, messages c' !! i = Some m ∧ m_id m = messageId ∧
            m_isDeleted m = true ∧ m_deletedAt m = Some now) ∧
    (NoDup (m_id <$> messages c) →
     Forall (λ m, m_id m ≠ messageId)
            (filter (λ m, m_isDeleted m = false) (messages c'))) ∧
    (∀ now', is_Some (deleteMessage c' messageId now')).
Proof.
  unfold deleteMessage. split.
  - destruct (list_find _ _) as [[i m]|] eqn:Hfind.
    + split; [done|]. intros H. apply list_find_Some in Hfind as (Hi & Hm & _).
      exfalso. eapply H; [|exact Hm]. by eapply list_elem_of_lookup_2.
    + split; [|done]. intros _ m Hm. apply list_find_None in Hfind.
      rewrite Forall_forall in Hfind. by apply Hfind.
  - intros c'. destruct (list_find _ _) as [[i m]|] eqn:Hfind; [|done].
    intros [= <-]. simpl.
    pose proof Hfind as (Hi & Hm & _)%list_find_Some.
    assert (i < length (messages c)) as Hlt by by eapply lookup_lt_Some.
    split_and!.
    + rewrite list_fmap_insert. apply list_insert_id.
      by rewrite list_lookup_fmap, Hi.
    + rewrite list_fmap_insert. apply list_insert_id.
      by rewrite list_lookup_fmap, Hi.
    + exists i, (mark_deleted m now). by rewrite list_lookup_insert_eq.
    + intros Hnd. apply Forall_forall. intros m' Hm' Hid.
      apply list_elem_of_filter in Hm' as [Hlive Hin].
      apply list_elem_of_lookup in Hin as [j Hj].
      destruct (decide (j = i)) as [->|Hne].
      * rewrite list_lookup_insert_eq in Hj by done. by injection Hj as <-.
      * rewrite list_lookup_insert_ne in Hj by done.
        apply Hne. eapply (NoDup_lookup _ j i messageId Hnd).
        -- by rewrite list_lookup_fmap, Hj; simpl; rewrite Hid.
        -- by rewrite list_lookup_fmap, Hi; simpl; rewrite Hm.
    + intros now'.
      erewrite (list_find_insert_same (msg_has_id messageId)); [eauto|done|done].
Qed.

(** X14. [lastMessage] is the last message not flagged deleted: right after
    [addMessage] it is the message just added; it is [null] when every
    message is deleted; and it never returns a deleted message. *)
Theorem lastMessage_cases c :
  (∀ messageData now rnd,
     lastMessage (addMessage c messageData now rnd)
     = Some (new_message messageData now rnd)) ∧
  (Forall (λ m, m_isDeleted m = true) (messages c) → lastMessage c = None) ∧
  (∀ m, lastMessage c = Some m → m ∈ messages c ∧ m_isDeleted m = false).
Proof.
  unfold lastMessage. split_and!.
  - intros md now rnd. simpl.
    rewrite filter_app, filter_cons_True, filter_nil by done. apply last_snoc.
  - intros Hall. rewrite filter_none; [done|].
    eapply Forall_impl; [exact Hall|]. simpl. intros m Hm. by rewrite Hm.
  - intros m Hm.
    assert (m ∈ filter (λ m, m_isDeleted m = false) (messages c)) as Hin.
    { destruct (filter _ _) as [|x l] using rev_ind; [done|].
      rewrite last_snoc in Hm. injection Hm as ->. set_solver. }
    apply list_elem_of_filter in Hin. tauto.
Qed.

Lemma markAsRead_createdAt c userId messageId now c' :
  markAsRead c userId messageId now = Some c' →
  m_createdAt <$> messages c' = m_createdAt <$> messages c.
Proof.
  unfold markAsRead. destruct (list_find _ _) as [[i p]|]; [|done].
  intros [= <-]. simpl. destruct (truthy messageId); [|done].
  destruct (list_find _ (messages c)) as [[j m]|] eqn:Hfind; [|done].
  apply list_find_Some in Hfind as (Hj & _).
  rewrite list_fmap_insert. apply list_insert_id. by rewrite list_lookup_fmap, Hj.
Qed.

(** X15. [unreadCount]: a user who is not a participant has count 0; a
    participant's own new message does not raise the participant's count,
    while somebody else's message, newer than the participant's last read,
    raises it by one; and after [markAsRead] at a time no message is newer
    than, the count is 0. *)
Theorem unreadCount_cases c userId :
  (userId ∉ p_user <$> participants c → unreadCount c userId = 0%nat) ∧
  (∀ messageData now rnd,
     md_sender messageData = userId →
     unreadCount (addMessage c messageData now rnd) userId = unreadCount c userId) ∧
  (∀ messageData now rnd i p,
     md_sender messageData ≠ userId →
     list_find (is_participant userId) (participants c) = Some (i, p) →
     (p_lastRead p < now)%nat →
     unreadCount (addMessage c messageData now rnd) userId = S (unreadCount c userId)) ∧
  (∀ messageId now c',
     markAsRead c userId messageId now = Some c' →
     Forall (λ m, (m_createdAt m ≤ now)%nat) (messages c) →
     unreadCount c' userId = 0%nat).
Proof.
  clear jwt_verify castable.
  split_and!.
  - intros Hout. unfold unreadCount.
    destruct (list_find _ _) as [[i p]|] eqn:Hfind; [|done].
    apply list_find_Some in Hfind as (Hi & Hp & _). exfalso. apply Hout.
    apply list_elem_of_fmap. exists p. split; [done|]. by eapply list_elem_of_lookup_2.
  - intros md now rnd Hsender. unfold unreadCount. simpl.
    destruct (list_find _ _) as [[i p]|]; [|done].
    rewrite filter_app, filter_cons_False, filter_nil, app_nil_r; [done|].
    simpl. tauto.
  - intros md now rnd i p Hsender Hfind Hlt. unfold unreadCount. simpl.
    rewrite Hfind. rewrite filter_app, filter_cons_True, filter_nil by done.
    rewrite length_app. simpl. lia.
  - intros messageId now c' Hmark Hold.
    pose proof (markAsRead_createdAt _ _ _ _ _ Hmark) as Hcreated.
    unfold markAsRead in Hmark.
    destruct (list_find _ _) as [[i p]|] eqn:Hfind; [|done].
    injection Hmark as <-. unfold unreadCount. simpl in *.
    erewrite (list_find_insert_same (is_participant userId)); [|done|].
    2:{ apply list_find_Some in Hfind as (_ & Hp & _). exact Hp. }
    simpl. rewrite filter_none; [done|].
    apply Forall_forall. intros m Hm [Hnew _].
    assert (m_createdAt m ∈ m_createdAt <$> messages c) as Hin.
    { rewrite <-Hcreated. apply list_elem_of_fmap. eauto. }
    apply list_elem_of_fmap in Hin as (m0 & Heq & Hm0).
    rewrite Forall_forall in Hold. specialize (Hold _ Hm0). lia.
Qed.

(** ** Read receipts and reactions *)

Lemma push_read_has m userId now :
  Exists (λ r, r_user r = userId) (m_readBy (push_read m userId now)).
Proof.
  unfold push_read. simpl. case_bool_decide as H; [done|].
  apply Exists_app. right. by constructor.
Qed.

Lemma push_read_again m userId now now' :
  push_read (push_read m userId now) userId now' = push_read m userId now.
Proof.
  pose proof (push_read_has m userId now) as H.
  unfold push_read at 1. rewrite bool_decide_eq_true_2 by done.
  by destruct (push_read m userId now).
Qed.

Lemma push_read_unique m userId now :
  NoDup (r_user <$> m_readBy m) →
  NoDup (r_user <$> m_readBy (push_read m userId now)).
Proof.
  intros Hnd. unfold push_read. simpl. case_bool_decide as H; [done|].
  rewrite fmap_app. apply NoDup_app. split; [done|].
  split; [|apply NoDup_singleton].
  intros u Hu Hu'. apply list_elem_of_singleton in Hu' as ->. apply H.
  apply list_elem_of_fmap in Hu as (r & Hr & Hin).
  apply Exists_exists. eauto.
Qed.

(** X16. A read receipt is recorded once.  After [markAsRead] for a message
    id, the first message with that id lists the user among its readers, and
    lists no user twice if it did not before; marking the same message again
    is accepted and leaves every message as it is. *)
Theorem read_receipt_recorded_once c userId messageId now c1 :
  messageId ≠ "" →
  markAsRead c userId (Some messageId) now = Some c1 →
  (∀ i m, list_find (msg_has_id messageId) (messages c) = Some (i, m) →
     ∃ m1, messages c1 !! i = Some m1 ∧
           Exists (λ r, r_user r = userId) (m_readBy m1) ∧
           (NoDup (r_user <$> m_readBy m) → NoDup (r_user <$> m_readBy m1))) ∧
  (∀ now', ∃ c2, markAsRead c1 userId (Some messageId) now' = Some c2 ∧
                 messages c2 = messages c1).
Proof.
  intros Hid. unfold markAsRead, truthy.
  rewrite (bool_decide_eq_false_2 (messageId = "")) by done. simpl.
  destruct (list_find (is_participant userId) (participants c))
    as [[k p]|] eqn:Hp; [|done].
  intros [= <-]. simpl. split.
  - intros i m Hfind. rewrite Hfind.
    pose proof Hfind as (Hi & _)%list_find_Some.
    exists (push_read m userId now).
    split; [apply list_lookup_insert_eq; by eapply lookup_lt_Some|].
    split; [apply push_read_has|apply push_read_unique].
  - intros now'.
    erewrite (list_find_insert_same (is_participant userId)); [|done|].
    2:{ apply list_find_Some in Hp as (_ & Hp & _). exact Hp. }
    eexists. split; [reflexivity|]. simpl.
    destruct (list_find (msg_has_id messageId) (messages c))
      as [[i m]|] eqn:Hfind; [|by rewrite Hfind].
    erewrite (list_find_insert_same (msg_has_id messageId)); [|done|].
    2:{ apply list_find_Some in Hfind as (_ & Hm & _). exact Hm. }
    by rewrite list_insert_insert_eq, push_read_again.
Qed.

(** X17. [addReaction] throws when no message has the id and also when the
    message already carries that user's reaction with that emoji, so a
    message never lists the same reaction twice.  A reaction that was added
    cannot be added again, and [removeReaction] gives back exactly the messages
    there were before it was added. *)
Theorem reaction_add_then_remove msgs messageId userId emoji now :
  (addReaction msgs messageId userId emoji now = None ↔
   ∀ i m, list_find (reacted_has_id messageId) msgs = Some (i, m) →
          Exists (same_reaction userId emoji) (rm_reactions m)) ∧
  ∀ msgs', addReaction msgs messageId userId emoji now = Some msgs' →
    (∀ now', addReaction msgs' messageId userId emoji now' = None) ∧
    removeReaction msgs' messageId userId emoji = Some msgs.
Proof.
  unfold addReaction. split.
  - destruct (list_find (reacted_has_id messageId) msgs) as [[i m]|] eqn:Hfind;
      [|by split].
    destruct (list_find (same_reaction userId emoji) (rm_reactions m))
      as [[j r]|] eqn:Hr.
    + split; [|done]. intros _ i' m' [= <- <-].
      apply list_find_Some in Hr as (Hj & Hsame & _).
      apply Exists_exists. exists r. split; [|done]. by eapply list_elem_of_lookup_2.
    + split; [done|]. intros H. specialize (H i m eq_refl).
      apply list_find_None in Hr. apply Exists_exists in H as (r & Hin & Hsame).
      rewrite Forall_forall in Hr. by destruct (Hr r Hin).
  - intros msgs'.
    destruct (list_find (reacted_has_id messageId) msgs) as [[i m]|] eqn:Hfind;
      [|done].
    destruct (list_find (same_reaction userId emoji) (rm_reactions m))
      as [[j r]|] eqn:Hr; [done|].
    intros [= <-].
    pose proof Hfind as (Hi & Hm & _)%list_find_Some.
    set (m' := {| rm_message := rm_message m;
                  rm_reactions := (rm_reactions m ++
                    [{| rx_user := userId; rx_emoji := emoji;
                        rx_createdAt := now |}])%list |}).
    assert (list_find (reacted_has_id messageId) (<[i := m']> msgs) = Some (i, m'))
      as Hfind' by by eapply list_find_insert_same.
    split.
    + intros now'. rewrite Hfind'. simpl.
      destruct (list_find (same_reaction userId emoji) (rm_reactions m ++ _))
        as [[j r]|] eqn:Hr'; [done|].
      apply list_find_None, Forall_app in Hr' as [_ Hr'].
      rewrite Forall_singleton in Hr'. by destruct Hr'.
    + unfold removeReaction. rewrite Hfind'. simpl.
      rewrite list_insert_insert_eq. f_equal. apply list_insert_id.
      rewrite Hi. f_equal. clear Hfind'. subst m'.
      destruct m as [mm rs]. simpl in *. f_equal.
      rewrite filter_app, filter_cons_False, filter_nil, app_nil_r.
      * symmetry. apply filter_all. apply list_find_None in Hr.
        eapply Forall_impl; [exact Hr|]. done.
      * intros Hn. by apply Hn.
Qed.

(** ** Project membership *)

Lemma list_find_insert_other {A} (P : A → Prop) `{!∀ x, Decision (P x)}
    (l : list A) i x y :
  l !! i = Some x → ¬ P x → ¬ P y → list_find P (<[i := y]> l) = list_find P l.
Proof.
  revert i. induction l as [|z l IH]; intros i Hi Hx Hy; [done|].
  destruct i as [|i]; simpl in *.
  - injection Hi as ->. by rewrite !decide_False.
  - case_decide; [done|]. by rewrite (IH i).
Qed.

Lemma list_find_snoc_other {A} (P : A → Prop) `{!∀ x, Decision (P x)}
    (l : list A) y :
  ¬ P y → list_find P (l ++ [y]) = list_find P l.
Proof.
  intros Hy. induction l as [|z l IH]; simpl.
  - by rewrite decide_False.
  - case_decide; [done|]. by rewrite IH.
Qed.

Lemma list_find_filter_snd {A} (P Q : A → Prop) `{!∀ x, Decision (P x)}
    `{!∀ x, Decision (Q x)} (l : list A) :
  (∀ x, P x → Q x) →
  snd <$> list_find P (filter Q l) = snd <$> list_find P l.
Proof.
  intros HPQ. induction l as [|z l IH]; [done|].
  rewrite filter_cons. simpl. destruct (decide (Q z)) as [Hq|Hq]; simpl.
  - case_decide; [done|].
    destruct (list_find P (filter Q l)) as [[i x]|],
             (list_find P l) as [[j y]|]; simpl in *; congruence.
  - rewrite decide_False by (intros Hp; by apply Hq, HPQ).
    destruct (list_find P (filter Q l)) as [[i x]|],
             (list_find P l) as [[j y]|]; simpl in *; congruence.
Qed.

Lemma hasAccess_by_member p userId requiredRole :
  hasAccess p userId requiredRole
  = if bool_decide (pr_owner p = userId) then true
    else match snd <$> list_find (is_member userId) (pr_members p) with
         | Some member => role_suffices (mb_role member) requiredRole
         | None => false
         end.
Proof.
  unfold hasAccess, role_suffices. case_bool_decide; [done|].
  by destruct (list_find _ _) as [[i m]|].
Qed.

Lemma hasAccess_lower_role p userId r1 r2 a b :
  roleHierarchy r1 = Some a → roleHierarchy r2 = Some b → (b ≤ a)%nat →
  hasAccess p userId (Some r1) = true → hasAccess p userId (Some r2) = true.
Proof.
  intros Hr1 Hr2 Hle. unfold hasAccess. case_bool_decide; [done|].
  destruct (list_find _ _) as [[i m]|]; [|done]. simpl. rewrite Hr1, Hr2.
  destruct (roleHierarchy (mb_role m)) as [have|]; [|done].
  rewrite !Nat.leb_le. lia.
Qed.

(** X18. [hasAccess]: the owner has access whatever role is asked for, even
    one the hierarchy does not know; anybody else is refused when the required
    role is unknown; leaving the role out asks for 'viewer'; and access at a
    role gives access at every lower role. *)
Theorem hasAccess_follows_the_hierarchy p :
  (∀ requiredRole, hasAccess p (pr_owner p) requiredRole = true) ∧
  (∀ userId r, userId ≠ pr_owner p → roleHierarchy r = None →
     hasAccess p userId (Some r) = false) ∧
  (∀ userId, hasAccess p userId None = hasAccess p userId (Some "viewer")) ∧
  (∀ userId r1 r2 a b,
     roleHierarchy r1 = Some a → roleHierarchy r2 = Some b → (b ≤ a)%nat →
     hasAccess p userId (Some r1) = true → hasAccess p userId (Some r2) = true).
Proof.
  split_and!.
  - intros r. unfold hasAccess. by rewrite bool_decide_eq_true_2.
  - intros u r Hne Hr. unfold hasAccess.
    rewrite bool_decide_eq_false_2 by done.
    destruct (list_find _ _) as [[i m]|]; [|done]. simpl. rewrite Hr.
    by destruct (roleHierarchy (mb_role m)).
  - done.
  - intros u r1 r2 a b. apply hasAccess_lower_role.
Qed.

(** X19. [addMember] is an upsert.  For a user other than the owner, access
    afterwards is decided by the role given (default 'member') alone; nobody
    else's access changes; no user gets listed twice; and the saved member
    count grows by one only when the user was not a member yet. *)
Theorem addMember_is_an_upsert p userId role now :
  (∀ requiredRole,
     userId ≠ pr_owner p →
     hasAccess (addMember p userId role now) userId requiredRole
     = role_suffices (default "member" role) requiredRole) ∧
  (∀ other requiredRole,
     other ≠ userId →
     hasAccess (addMember p userId role now) other requiredRole
     = hasAccess p other requiredRole) ∧
  (NoDup (mb_user <$> pr_members p) →
   NoDup (mb_user <$> pr_members (addMember p userId role now))) ∧
  pr_totalMembers (project_pre_save (addMember p userId role now))
  = (if decide (userId ∈ mb_user <$> pr_members p)
     then pr_totalMembers (project_pre_save p)
     else S (pr_totalMembers (project_pre_save p))).
Proof.
  split_and!.
  - intros req Hne. rewrite hasAccess_by_member. simpl.
    rewrite bool_decide_eq_false_2 by done.
    destruct (list_find (is_member userId) (pr_members p)) as [[i m]|] eqn:Hfind.
    + erewrite (list_find_insert_same (is_member userId)); [done|done|].
      apply list_find_Some in Hfind as (_ & Hm & _). exact Hm.
    + rewrite list_find_app_r by done. simpl. by rewrite decide_True.
  - intros other req Hne. rewrite !hasAccess_by_member. simpl.
    case_bool_decide; [done|].
    destruct (list_find (is_member userId) (pr_members p)) as [[i m]|] eqn:Hfind.
    + apply list_find_Some in Hfind as (Hi & Hm & _).
      erewrite (list_find_insert_other (is_member other)); [done|done| |];
        unfold is_member in *; simpl; congruence.
    + rewrite list_find_snoc_other; [done|]. unfold is_member. simpl. congruence.
  - intros Hnd. simpl.
    destruct (list_find (is_member userId) (pr_members p)) as [[i m]|] eqn:Hfind.
    + apply list_find_Some in Hfind as (Hi & Hm & _).
      rewrite list_fmap_insert. simpl. rewrite list_insert_id; [done|].
      by rewrite list_lookup_fmap, Hi.
    + rewrite fmap_app. apply NoDup_app. split; [done|].
      split; [|apply NoDup_singleton].
      intros u Hu Hu'. apply list_elem_of_singleton in Hu' as ->.
      apply list_find_None in Hfind. rewrite Forall_forall in Hfind.
      apply list_elem_of_fmap in Hu as (m & Hm & Hin). by apply (Hfind m).
  - simpl.
    destruct (list_find (is_member userId) (pr_members p)) as [[i m]|] eqn:Hfind.
    + apply list_find_Some in Hfind as (Hi & Hm & _).
      rewrite decide_True.
      * by rewrite length_insert.
      * apply list_elem_of_fmap. exists m. split; [done|].
        by eapply list_elem_of_lookup_2.
    + rewrite decide_False.
      * rewrite length_app. simpl. lia.
      * intros Hin. apply list_elem_of_fmap in Hin as (m & Hm & Hin).
        apply list_find_None in Hfind. rewrite Forall_forall in Hfind.
        by apply (Hfind m).
Qed.

(** X20. [removeMember] revokes: afterwards the user has access only if the
    user is the owner; nobody else's access changes; and the saved member
    count does not grow. *)
Theorem removeMember_revokes p userId :
  (∀ requiredRole,
     hasAccess (removeMember p userId) userId requiredRole
     = bool_decide (pr_owner p = userId)) ∧
  (∀ other requiredRole,
     other ≠ userId →
     hasAccess (removeMember p userId) other requiredRole
     = hasAccess p other requiredRole) ∧
  (pr_totalMembers (project_pre_save (removeMember p userId))
   ≤ pr_totalMembers (project_pre_save p))%nat.
Proof.
  split_and!.
  - intros req. rewrite hasAccess_by_member. simpl. case_bool_decide; [done|].
    destruct (list_find _ _) as [[i m]|] eqn:Hfind; [|done].
    apply list_find_Some in Hfind as (Hi & Hm & _).
    apply list_elem_of_lookup_2, list_elem_of_filter in Hi as [Hn _].
    by destruct Hn.
  - intros other req Hne. rewrite !hasAccess_by_member. simpl.
    rewrite (list_find_filter_snd (is_member other)); [done|].
    unfold is_member. congruence.
  - simpl. pose proof (length_filter (λ m, ¬ is_member userId m) (pr_members p)).
    lia.
Qed.

(** ** HTTP guards *)

Lemma bearer_token_Some header :
  bearer_token (Some header)
  = if String.prefix "Bearer" header then split_on " "%char header !! 1%nat else None.
Proof. by destruct header. Qed.

Lemma header_only_token header :
  handshake_token {| auth_token := None; authorization := Some header |}
  = split_on " "%char header !! 1%nat.
Proof. done. Qed.

(** X21. [protect] lets a request through exactly when its Authorization
    header starts with 'Bearer' and the socket middleware, given the same
    header and no [auth.token], would accept the handshake, and then both
    attach the same user; without a header, or whenever it refuses, [protect]
    answers 401. *)
Theorem protect_agrees_with_socket_auth db clock :
  (∀ header user,
     protect jwt_verify castable db clock (Some header) = Next user ↔
     String.prefix "Bearer" header = true ∧
     auth_middleware jwt_verify castable db clock
       {| auth_token := None; authorization := Some header |} = Accepted user) ∧
  (∀ authorization,
     (∃ user, protect jwt_verify castable db clock authorization = Next user) ∨
     (∃ message, protect jwt_verify castable db clock authorization
                 = Respond 401 message)).
Proof.
  split.
  - intros header user. unfold protect, auth_middleware.
    rewrite bearer_token_Some, header_only_token.
    destruct (String.prefix "Bearer" header) eqn:Hpre;
      [|split; [done|by intros []]].
    destruct (truthy (split_on " " header !! 1%nat)); simpl;
      [|split; [done|by intros []]].
    destruct (jwt_verify clock _) as [id| | |];
      try (split; [done|by intros []]).
    destruct (User_findById castable db id) as [[u|]|];
      try (split; [done|by intros []]).
    destruct (isActive u); [|split; [done|by intros []]].
    split; [by intros [= ->]|by intros [_ [= ->]]].
  - intros authorization. unfold protect.
    destruct (negb (truthy (bearer_token authorization))); [eauto|].
    destruct (jwt_verify clock _) as [id| | |]; eauto.
    destruct (User_findById castable db id) as [[u|]|]; eauto.
    destruct (isActive u); eauto.
Qed.

(** X22. [optionalAuth] never refuses a request, and it attaches a user to
    the request exactly when [protect] would have let the request through with
    that user. *)
Theorem optionalAuth_agrees_with_protect db clock authorization user :
  optionalAuth jwt_verify castable db clock authorization = Some user ↔
  protect jwt_verify castable db clock authorization = Next user.
Proof.
  unfold optionalAuth, protect.
  destruct (truthy (bearer_token authorization)); simpl; [|done].
  destruct (jwt_verify clock _) as [id| | |]; try done.
  destruct (User_findById castable db id) as [[u|]|]; try done.
  destruct (isActive u); [|done]. split; by intros [= ->].
Qed.

(** X23. [authorize]: without an authenticated user the answer is 401; a
    user whose role is not listed gets 403; and whoever passes a guard passes
    every guard that lists at least the same roles, so [requireAdmin] implies
    [requireMember], which implies [requireViewer]. *)
Theorem authorize_is_monotone roles roles' requester :
  authorize roles None = Respond 401 "User not authenticated" ∧
  (authorize roles requester = Next tt ∨
   ∃ status message, authorize roles requester = Respond status message ∧
                     (status = 401 ∨ status = 403)%nat) ∧
  (roles ⊆ roles' →
   authorize roles requester = Next tt → authorize roles' requester = Next tt) ∧
  (requireAdmin requester = Next tt → requireMember requester = Next tt) ∧
  (requireMember requester = Next tt → requireViewer requester = Next tt).
Proof.
  clear jwt_verify castable.
  assert (∀ rs rs', rs ⊆ rs' →
            authorize rs requester = Next tt → authorize rs' requester = Next tt)
    as Hmono.
  { intros rs rs' Hsub. unfold authorize. destruct requester as [r|]; [|done].
    case_bool_decide as Hin; [|done]. intros _.
    by rewrite bool_decide_eq_true_2 by set_solver. }
  split_and!; [done| |apply Hmono| |].
  - unfold authorize. destruct requester as [r|]; [|eauto 10].
    case_bool_decide; eauto 10.
  - apply Hmono. set_solver.
  - apply Hmono. set_solver.
Qed.

(** X24. [projectAccess] passes a request on only with the stored project of
    the id given and only if [hasAccess] grants the user the required role
    (default 'viewer'); the owner of an existing project always passes; and a
    request that passes at a role passes at every lower role. *)
Theorem projectAccess_guards requiredRole projects projectId userId :
  (∀ project,
     projectAccess castable requiredRole projects projectId userId = Next project ↔
     ∃ id, projectId = Some id ∧ id ≠ "" ∧
           findById castable projects id = Some (Some project) ∧
           hasAccess project userId (Some (default "viewer" requiredRole)) = true) ∧
  (∀ id project,
     id ≠ "" → findById castable projects id = Some (Some project) →
     projectAccess castable requiredRole projects (Some id) (pr_owner project)
     = Next project) ∧
  (∀ r1 r2 a b project,
     roleHierarchy r1 = Some a → roleHierarchy r2 = Some b → (b ≤ a)%nat →
     projectAccess castable (Some r1) projects projectId userId = Next project →
     projectAccess castable (Some r2) projects projectId userId = Next project).
Proof.
  assert (∀ req pid uid project,
     projectAccess castable req projects pid uid = Next project ↔
     ∃ id, pid = Some id ∧ id ≠ "" ∧
           findById castable projects id = Some (Some project) ∧
           hasAccess project uid (Some (default "viewer" req)) = true) as Hiff.
  { intros req pid uid project. unfold projectAccess, truthy.
    destruct pid as [id|]; simpl; [|split; [done|by intros (? & ? & _)]].
    case_bool_decide as Hid; simpl.
    { split; [done|]. intros (id' & [= <-] & Hne & _). done. }
    destruct (findById _ _ _) as [[pr|]|] eqn:Hfind.
    - destruct (hasAccess pr uid _) eqn:Hacc.
      + split; [intros [= <-]; eauto|].
        intros (id' & [= <-] & _ & Hf & _). rewrite Hfind in Hf. by injection Hf as ->.
      + split; [done|]. intros (id' & [= <-] & _ & Hf & Hacc').
        rewrite Hfind in Hf. injection Hf as ->. congruence.
    - split; [done|]. intros (id' & [= <-] & _ & Hf & _). congruence.
    - split; [done|]. intros (id' & [= <-] & _ & Hf & _). congruence. }
  split_and!; [apply Hiff| |].
  - intros id project Hid Hfind. apply Hiff. exists id. split_and!; [done..|].
    unfold hasAccess. by rewrite bool_decide_eq_true_2.
  - intros r1 r2 a b project Hr1 Hr2 Hle. rewrite !Hiff. simpl.
    intros (id & -> & Hid & Hfind & Hacc). exists id. split_and!; [done..|].
    simpl in *. by apply (hasAccess_lower_role _ _ r1 r2 a b).
Qed.

(** * Further properties of the events *)

(** ** Chat events, continued *)

Lemma receive_chat_message srv cid s chatId content type attachments now rnd cdoc :
  srv_conns srv !! cid = Some s →
  chatId ≠ "" → content ≠ "" →
  findById castable (chats (srv_db srv)) chatId = Some (Some cdoc) →
  forallb valid_message
    (messages cdoc ++
     [new_message {| md_id := None; md_content := content;
                     md_type := default "text" type;
                     md_attachments := default [] attachments;
                     md_sender := u_id (s_user s) |} now rnd])%list = true →
  receive castable srv cid
    (ChatMessage (Some chatId) (Some content) type attachments) now rnd
  = Some (let message :=
            new_message {| md_id := None; md_content := content;
                           md_type := default "text" type;
                           md_attachments := default [] attachments;
                           md_sender := u_id (s_user s) |} now rnd in
          ({| srv_conns := srv_conns srv;
              srv_db :=
                {| users := users (srv_db srv);
                   whiteboards := whiteboards (srv_db srv);
                   chats :=
                     <[chatId := {| participants := participants cdoc;
                                    messages := (messages cdoc ++ [message])%list;
                                    lastActivity := now |}]> (chats (srv_db srv)) |} |},
           [ToRoomAll (chat_room chatId)
              (ChatMessageReceived message (card (s_user s)))],
           (λ c, (c, ChatMessageReceived message (card (s_user s))))
             <$> members (srv_conns srv) (chat_room chatId))).
Proof.
  intros Hs Hchat Hcontent Hfind Hvalid.
  assert (chats (srv_db srv) !! chatId = Some cdoc) as Hc.
  { unfold findById in Hfind. destruct (castable chatId); congruence. }
  unfold receive. rewrite Hs. simpl.
  unfold on_chat_message, truthy.
  rewrite !bool_decide_eq_false_2 by done. simpl.
  unfold try_catch, mbind, M_bind, bindM, Chat_findById, Chat_save. simpl.
  rewrite Hfind. simpl. rewrite Hvalid. simpl.
  rewrite Hc. simpl. unfold chat_pre_save. simpl.
  destruct (decide (messages cdoc = (messages cdoc ++ _)%list)) as [Heq|_].
  { apply (f_equal length) in Heq. rewrite length_app in Heq. simpl in Heq. lia. }
  simpl. rewrite last_snoc. simpl.
  rewrite insert_id by done. unfold deliveries. simpl. by rewrite app_nil_r.
Qed.

(** X25. The [chat-message] handler checks neither that the connection has
    joined the chat's room nor that its user is a participant of the chat: a
    message from a connection outside the room is stored and broadcast to the
    room's members all the same, and the sender itself receives nothing, not
    even its own message. *)
Theorem chat_message_from_outside_the_room
    srv cid s chatId content type attachments now rnd cdoc :
  srv_conns srv !! cid = Some s →
  chat_room chatId ∉ s_rooms s →
  chatId ≠ "" → content ≠ "" →
  findById castable (chats (srv_db srv)) chatId = Some (Some cdoc) →
  forallb valid_message
    (messages cdoc ++
     [new_message {| md_id := None; md_content := content;
                     md_type := default "text" type;
                     md_attachments := default [] attachments;
                     md_sender := u_id (s_user s) |} now rnd])%list = true →
  ∃ srv' acts out saved message,
    receive castable srv cid
      (ChatMessage (Some chatId) (Some content) type attachments) now rnd
    = Some (srv', acts, out) ∧
    chats (srv_db srv') !! chatId = Some saved ∧
    messages saved = (messages cdoc ++ [message])%list ∧
    m_sender message = u_id (s_user s) ∧
    m_content message = content ∧
    (∀ c, c ∈ members (srv_conns srv) (chat_room chatId) →
          (c, ChatMessageReceived message (card (s_user s))) ∈ out) ∧
    (∀ e, (cid, e) ∉ out).
Proof.
  intros Hs Hout Hchat Hcontent Hfind Hvalid.
  eexists _, _, _, _, _. split; [by apply receive_chat_message|]. cbn.
  split; [apply lookup_insert_eq|]. split; [reflexivity|].
  split; [reflexivity|]. split; [reflexivity|]. split.
  - intros c Hc. apply list_elem_of_fmap. eauto.
  - intros e He. apply list_elem_of_fmap in He as (c & [= <- _] & Hc).
    apply elem_of_members in Hc as (s' & Hs' & Hroom). congruence.
Qed.

(** X26. Typing and read events from a user who is not a participant of the
    chat are dropped: the model method throws 'User not found in chat', the
    handler only logs it, nothing is stored, nothing is broadcast and the
    sender is not told. *)
Theorem events_of_a_non_participant_are_dropped srv cid s chatId cdoc now rnd :
  srv_conns srv !! cid = Some s →
  chatId ≠ "" →
  findById castable (chats (srv_db srv)) chatId = Some (Some cdoc) →
  u_id (s_user s) ∉ p_user <$> participants cdoc →
  receive castable srv cid (ChatTypingStart (Some chatId)) now rnd
  = Some (srv, [ConsoleError "Error updating typing status:"
                  "User not found in chat"], []) ∧
  receive castable srv cid (ChatTypingStop (Some chatId)) now rnd
  = Some (srv, [ConsoleError "Error updating typing status:"
                  "User not found in chat"], []) ∧
  ∀ messageId,
    receive castable srv cid (ChatMessageRead (Some chatId) messageId) now rnd
    = Some (srv, [ConsoleError "Error marking message as read:"
                    "User not found in chat"], []).
Proof.
  intros Hs Hchat Hfind Hout.
  assert (list_find (is_participant (u_id (s_user s))) (participants cdoc) = None)
    as Hnone.
  { apply list_find_None, Forall_forall. intros p Hp Hu. apply Hout.
    apply list_elem_of_fmap. by exists p. }
  unfold receive. rewrite Hs. simpl.
  unfold on_chat_typing_start, on_chat_typing_stop, on_chat_typing,
    on_chat_message_read, truthy.
  rewrite !bool_decide_eq_false_2 by done. simpl.
  unfold try_catch, mbind, M_bind, bindM, Chat_findById. simpl.
  rewrite Hfind. simpl. unfold updateTypingStatus, markAsRead. rewrite Hnone.
  simpl. by rewrite server_eta.
Qed.

(** X27. [join-chat] on a stored chat: the connection joins the chat's room
    and records the chat as its current one; the store is untouched, so the
    user is not made a participant; the sender receives [chat-history] whose
    message list holds exactly the messages not flagged deleted, alongside the
    chat document as stored; the others in the room are told the user
    joined. *)
Theorem join_chat_sends_history srv cid s chatId cdoc now rnd :
  srv_conns srv !! cid = Some s →
  chatId ≠ "" →
  findById castable (chats (srv_db srv)) chatId = Some (Some cdoc) →
  ∃ srv' out history s',
    receive castable srv cid (JoinChat (Some chatId)) now rnd
    = Some (srv',
            [EmitSelf (ChatHistory cdoc history);
             ToRoomExcl (chat_room chatId) (UserJoinedChat (card (s_user s)))],
            out) ∧
    srv_db srv' = srv_db srv ∧
    (∀ m, m ∈ history ↔ m ∈ messages cdoc ∧ m_isDeleted m = false) ∧
    srv_conns srv' !! cid = Some s' ∧
    s_rooms s' = s_rooms s ∪ {[ chat_room chatId ]} ∧
    s_chatId s' = Some chatId ∧
    (cid, ChatHistory cdoc history) ∈ out.
Proof.
  clear jwt_verify.
  intros Hs Hchat Hfind. unfold receive. rewrite Hs. simpl.
  unfold on_join_chat, truthy. rewrite bool_decide_eq_false_2 by done. simpl.
  unfold try_catch, mbind, M_bind, bindM, Chat_findById. simpl.
  rewrite Hfind. simpl.
  eexists _, _, _, _. split; [reflexivity|]. cbn.
  split; [done|]. split.
  { intros m. rewrite list_elem_of_filter. tauto. }
  split; [apply lookup_insert_eq|]. split; [done|]. split; [done|].
  apply list_elem_of_here.
Qed.

(** ** Whiteboard presence on join and on disconnect *)

(** X28. [join-whiteboard] on a stored whiteboard records the user's
    presence with the cursor at the origin, whatever cursor the user had
    before, and changes neither the elements nor the version; the sender
    receives [whiteboard-state] with the document as saved, the others in the
    room are told the user joined. *)
Theorem join_whiteboard_records_presence srv cid s wid w now rnd :
  srv_conns srv !! cid = Some s →
  wid ≠ "" →
  findById castable (whiteboards (srv_db srv)) wid = Some (Some w) →
  forallb valid_element (elements w) = true →
  ∃ srv' out w',
    receive castable srv cid (JoinWhiteboard (Some wid)) now rnd
    = Some (srv',
            [EmitSelf (WhiteboardState w' (collaborators w'));
             ToRoomExcl (whiteboard_room wid) (UserJoinedWhiteboard (card (s_user s)))],
            out) ∧
    whiteboards (srv_db srv') !! wid = Some w' ∧
    elements w' = elements w ∧
    version w' = version w ∧
    (∃ i, list_find (is_user (u_id (s_user s))) (collaborators w')
          = Some (i, {| col_user := u_id (s_user s); col_cursor := (0, 0)%Z;
                        col_lastActive := now |})) ∧
    (cid, WhiteboardState w' (collaborators w')) ∈ out.
Proof.
  intros Hs Hwid Hfind Hvalid.
  assert (whiteboards (srv_db srv) !! wid = Some w) as Hw.
  { unfold findById in Hfind. destruct (castable wid); congruence. }
  unfold receive. rewrite Hs. simpl.
  unfold on_join_whiteboard, truthy. rewrite bool_decide_eq_false_2 by done. simpl.
  unfold try_catch, mbind, M_bind, bindM, Whiteboard_findById, Whiteboard_save. simpl.
  rewrite Hfind. simpl. rewrite Hvalid. simpl. rewrite Hw. simpl.
  unfold whiteboard_pre_save. simpl. rewrite decide_True by done.
  eexists _, _, _. split; [reflexivity|]. cbn.
  split; [apply lookup_insert_eq|]. split; [done|]. split; [done|].
  split; [apply (updateCollaboratorCursor_find w)|]. apply list_elem_of_here.
Qed.

Lemma cleanup_chat_keeps_whiteboards now c :
  whiteboards (ctx_db (cleanup_chat castable now c).1.1) = whiteboards (ctx_db c).
Proof.
  unfold cleanup_chat, mbind, M_bind, bindM, Chat_findById, Chat_save. simpl.
  destruct (truthy _); [|done]. simpl.
  destruct (findById _ _ _) as [[ch|]|]; simpl; try done.
  destruct (updateTypingStatus _ _ _) as [ch'|]; simpl; [|done].
  by destruct (forallb _ _).
Qed.

Lemma on_disconnect_no_self_emit now :
  emits_only no_self_emit (on_disconnect castable now).
Proof. unfold_handlers; emits ltac:(by intros ?). Qed.

(** X29. On disconnect of a connection whose current whiteboard is stored,
    the user's presence entry is removed from that whiteboard (the elements
    stay), the room is told the user left, the connection is gone from the
    registry, and nothing at all is delivered to it. *)
Theorem disconnect_clears_presence srv cid s wid w now :
  srv_conns srv !! cid = Some s →
  s_whiteboardId s = Some wid →
  wid ≠ "" →
  findById castable (whiteboards (srv_db srv)) wid = Some (Some w) →
  forallb valid_element (elements w) = true →
  ∃ srv' rest out w',
    disconnect castable srv cid now
    = Some (srv',
            ToRoomExcl (whiteboard_room wid) (UserLeftWhiteboard (brief (s_user s)))
              :: rest,
            out) ∧
    srv_conns srv' !! cid = None ∧
    (∀ e, (cid, e) ∉ out) ∧
    whiteboards (srv_db srv') !! wid = Some w' ∧
    elements w' = elements w ∧
    u_id (s_user s) ∉ col_user <$> collaborators w'.
Proof.
  intros Hs Hcur Hwid Hfind Hvalid.
  assert (whiteboards (srv_db srv) !! wid = Some w) as Hw.
  { unfold findById in Hfind. destruct (castable wid); congruence. }
  unfold disconnect. rewrite Hs.
  pose proof (on_disconnect_no_self_emit now
                {| ctx_sock := s; ctx_db := srv_db srv |}) as Hself.
  pose proof (on_disconnect_not_to_all now
                {| ctx_sock := s; ctx_db := srv_db srv |}) as Hall.
  rewrite on_disconnect_eq in Hself, Hall |- *.
  assert (cleanup_whiteboard castable {| ctx_sock := s; ctx_db := srv_db srv |}
          = ({| ctx_sock := s;
                ctx_db := {| users := users (srv_db srv);
                             whiteboards :=
                               <[wid := removeCollaborator w (u_id (s_user s))]>
                                 (whiteboards (srv_db srv));
                             chats := chats (srv_db srv) |} |},
             [ToRoomExcl (whiteboard_room wid) (UserLeftWhiteboard (brief (s_user s)))],
             Done tt)) as Hcw.
  { unfold cleanup_whiteboard, mbind, M_bind, bindM, Whiteboard_findById,
      Whiteboard_save, truthy. simpl. rewrite Hcur. simpl.
    rewrite bool_decide_eq_false_2 by done. simpl.
    rewrite Hfind. simpl. rewrite Hvalid. simpl. rewrite Hw. simpl.
    unfold whiteboard_pre_save. simpl. by rewrite decide_True. }
  rewrite Hcw in Hself, Hall |- *.
  match goal with
  | |- context [cleanup_chat castable now ?c1] =>
      pose proof (cleanup_chat_keeps_whiteboards now c1) as Hkeep;
      destruct (cleanup_chat castable now c1) as [[c2 o2] [[]|e]]
  end; simpl in Hkeep, Hself, Hall.
  - eexists _, _, _, _. split; [reflexivity|].
    split; [cbn; apply lookup_delete_eq|]. split.
    { intros e He. apply sender_gets_only_own_emits in He; [|done].
      rewrite Forall_forall in Hself. by destruct (Hself _ He e). }
    cbn. rewrite Hkeep. split; [apply lookup_insert_eq|]. split; [done|].
    simpl. intros Hin. apply list_elem_of_fmap in Hin as (c & Hc & Hin).
    apply list_elem_of_filter in Hin as [Hn _]. by apply Hn.
  - eexists _, _, _, _. split; [reflexivity|].
    split; [cbn; apply lookup_delete_eq|]. split.
    { intros e' He. apply sender_gets_only_own_emits in He; [|done].
      rewrite Forall_forall in Hself. by destruct (Hself _ He e'). }
    cbn. rewrite Hkeep. split; [apply lookup_insert_eq|]. split; [done|].
    simpl. intros Hin. apply list_elem_of_fmap in Hin as (c & Hc & Hin).
    apply list_elem_of_filter in Hin as [Hn _]. by apply Hn.
Qed.

(** ** Accepted handshakes *)

(** X30. A handshake whose token verifies and names a stored, active user is
    accepted: the connection is registered under an id no connection had, in
    exactly two rooms, the one of its own id and its user's personal room, and
    with no current project, whiteboard or chat; the connections already
    registered are left as they were.  Nothing limits how many connections
    one user holds. *)
Theorem connect_registers_a_fresh_connection srv clock hs token id user :
  handshake_token hs = Some token →
  token ≠ "" →
  jwt_verify clock token = JwtPayload (Some id) →
  castable id = true →
  users (srv_db srv) !! id = Some user →
  isActive user = true →
  ∃ cid srv',
    connect jwt_verify castable srv clock hs = (srv', Connected cid) ∧
    srv_conns srv !! cid = None ∧
    srv_conns srv' !! cid
    = Some {| s_user := user;
              s_rooms := {[ socket_room cid; user_room (u_id user) ]};
              s_projectId := None; s_whiteboardId := None; s_chatId := None |} ∧
    srv_db srv' = srv_db srv ∧
    (∀ c s, srv_conns srv !! c = Some s → srv_conns srv' !! c = Some s).
Proof.
  intros Htok Hne Hjwt Hcast Huser Hact.
  unfold connect, auth_middleware, truthy. rewrite Htok. simpl.
  rewrite bool_decide_eq_false_2 by done. simpl. rewrite Hjwt. simpl.
  unfold findById. rewrite Hcast, Huser, Hact.
  assert (srv_conns srv !! fresh (dom (srv_conns srv)) = None) as Hfresh.
  { apply not_elem_of_dom. apply is_fresh. }
  eexists _, _. split; [reflexivity|]. cbn.
  split; [done|]. split; [apply lookup_insert_eq|]. split; [done|].
  intros c s Hc. rewrite lookup_insert_ne; [done|]. congruence.
Qed.

End Properties.

(** * The properties on the concrete deployment *)

Section Concrete.

Import Demo.

(** ** Instances of the general theorems *)

Lemma handshake_gate_witness :
  bad_credential jwt oid (srv_db srv) 5000 (mkHandshake (Some "tok-alice") None) ∧
  (∃ err, connect jwt oid srv 5000 (mkHandshake (Some "tok-alice") None)
          = (srv, ConnectError err)) ∧
  receive oid srv 7 (JoinProject (Some "p1")) 1 "r" = None.
Proof.
  assert (bad_credential jwt oid (srv_db srv) 5000
            (mkHandshake (Some "tok-alice") None)) as Hbad.
  { right. exists "tok-alice". split; [reflexivity|]. right. left. reflexivity. }
  destruct (handshake_gate jwt oid) as (Hrefuse & Hnone & _).
  split; [exact Hbad|]. split.
  - exact (Hrefuse srv 5000 _ Hbad).
  - apply Hnone. reflexivity.
Defined.

Lemma chat_message_fanout_witness :
  ∃ srv' out message,
    receive oid srv 0 (ChatMessage (Some "c1") (Some "hi") None None) 7 "abc"
    = Some (srv', [ToRoomAll "chat_c1"
                     (ChatMessageReceived message (card alice))], out) ∧
    m_id message = "msg_7_abc" ∧
    (0%nat, ChatMessageReceived message (card alice)) ∈ out.
Proof.
  destruct (chat_message_fanout oid) as (Hsend & _ & _).
  destruct (Hsend srv 0%nat (joined 0%nat alice) "c1" "hi" None None 7%nat "abc" room_chat)
    as (srv' & out & Hrecv & _ & _ & Hid & _ & _ & Hself).
  - reflexivity.
  - vm_compute. set_solver.
  - discriminate.
  - discriminate.
  - reflexivity.
  - reflexivity.
  - exists srv', out. eexists. split; [exact Hrecv|]. split; [exact Hid|exact Hself].
Defined.

Lemma element_update_unknown_id_witness :
  ∃ acts msg,
    receive oid srv 0
      (WhiteboardElementUpdate (Some "w1") (Some "zz") (Some (rect "q"))) 7 "r"
    = Some (srv, acts, [(0%nat, EvError msg)]).
Proof.
  destruct (element_update_unknown_id oid srv 0%nat (joined 0%nat alice) "w1" (Some "zz")
              (Some (rect "q")) 7%nat "r" board)
    as (acts & msg & Hrecv & _).
  - reflexivity.
  - reflexivity.
  - intros e He. apply list_elem_of_singleton in He as ->. discriminate.
  - exists acts, msg. exact Hrecv.
Defined.

Lemma join_unresolved_whiteboard_witness :
  ∃ srv',
    receive oid srv 0 (JoinWhiteboard (Some "w404")) 7 "r" = Some (srv', [], []) ∧
    s_whiteboardId <$> srv_conns srv' !! 0%nat = Some (Some "w404").
Proof.
  destruct (join_unresolved_whiteboard oid srv 0%nat (joined 0%nat alice) "w404"
              7%nat "r")
    as (acts & out & Hrecv & _ & Hacts & Hout).
  - reflexivity.
  - discriminate.
  - intros w. discriminate.
  - eexists. split.
    + rewrite Hrecv, Hacts, Hout. reflexivity.
    + simpl. rewrite lookup_insert_eq. reflexivity.
Defined.


Lemma updateMessage_ignores_isDeleted_witness :
  m_isDeleted gone = true ∧ m_sender gone = "u1" ∧
  ∃ c' m',
    updateMessage chat_with_deleted "m1" rewrite_all 9 = Some c' ∧
    messages c' !! 0%nat = Some m' ∧
    m_content m' = "rewritten" ∧
    m_isEdited m' = true ∧ m_editedAt m' = Some 9%nat ∧
    m_sender m' = "u2".
Proof.
  split; [reflexivity|]. split; [reflexivity|].
  destruct (updateMessage_ignores_isDeleted chat_with_deleted "m1" rewrite_all 9)
    as [_ Hedit].
  destruct (Hedit 0%nat gone)
    as (c' & m' & Hupd & _ & Hm' & _ & Hcontent & _ & _ & Hedited & Hat & Hsender & _).
  - reflexivity.
  - exists c', m'. split; [exact Hupd|]. split; [exact Hm'|].
    split; [exact Hcontent|]. split; [exact Hedited|].
    split; [exact Hat|exact Hsender].
Defined.

Lemma element_add_ids_witness :
  ∃ srv' acts out w',
    receive oid srv 1 (WhiteboardElementAdd (Some "w1") (Some (rect "e2"))) 7 "r"
    = Some (srv', acts, out) ∧
    whiteboards (srv_db srv') !! "w1" = Some w' ∧
    e_id <$> elements w' = [Some "e1"; Some "e2"].
Proof.
  destruct (element_add_ids oid srv 1%nat (joined 1%nat bob) "w1" (rect "e2") 7%nat "r" board)
    as (srv' & acts & out & w' & Hrecv & Hw' & Hids & _).
  - reflexivity.
  - discriminate.
  - reflexivity.
  - reflexivity.
  - exists srv', acts, out, w'. split; [exact Hrecv|]. split; [exact Hw'|exact Hids].
Defined.

(** ** Where the code departs from the stated behaviour *)

(** C4, evaluated: Alice removes an element id the whiteboard does not hold.
    The stored elements are the same as before, no [error] reaches Alice, and
    Bob is told the element was removed. *)
Theorem remove_unknown_element_is_broadcast :
  Forall (λ e, e_id e ≠ Some "zz") (elements board) ∧
  ∃ srv' w',
    receive oid srv 0 (WhiteboardElementRemove (Some "w1") (Some "zz")) 7 "r"
    = Some (srv',
            [ToRoomExcl "whiteboard_w1"
               (WhiteboardElementRemoved "zz" (UserBrief "u1" "alice"))],
            [(1%nat, WhiteboardElementRemoved "zz" (UserBrief "u1" "alice"))]) ∧
    whiteboards (srv_db srv') !! "w1" = Some w' ∧
    elements w' = elements board.
Proof.
  split.
  - repeat constructor. discriminate.
  - eexists _, _. split; [vm_compute; reflexivity|].
    split; [vm_compute; reflexivity|]. reflexivity.
Qed.

(** C9, evaluated: Alice's [chat-message] is appended to the chat, and the
    stored message has an empty read-by list: the sender is not in it. *)
Theorem chat_message_not_marked_read :
  ∃ srv' out c' m,
    receive oid srv 0 (ChatMessage (Some "c1") (Some "hi") None None) 7 "abc"
    = Some (srv', [ToRoomAll "chat_c1" (ChatMessageReceived m (card alice))], out) ∧
    chats (srv_db srv') !! "c1" = Some c' ∧
    messages c' = [hello; m] ∧
    m_sender m = u_id alice ∧
    m_readBy m = [] ∧
    ¬ Exists (λ r, r_user r = u_id alice) (m_readBy m).
Proof.
  eexists _, _, _, _. split; [vm_compute; reflexivity|].
  split; [vm_compute; reflexivity|].
  split; [reflexivity|]. split; [reflexivity|]. split; [reflexivity|].
  simpl. intros H. by apply Exists_nil in H.
Qed.

(** C5, refuted: Bob joined chat [c1] without being one of its participants,
    so on his disconnect the typing cleanup throws.  The project cleanup, which
    on its own would tell room [project_p1] that he left, is never run: Alice,
    who is in that room, receives [user-left-whiteboard] and nothing else. *)
Lemma disconnect_chat_failure_skips_project :
  ∃ srv' acts out,
    disconnect oid srv 1 7 = Some (srv', acts, out) ∧
    ConsoleError "Error cleaning up socket disconnect:" "User not found in chat" ∈ acts ∧
    (cleanup_project 7 {| ctx_sock := joined 1%nat bob; ctx_db := db |}).1.2
    = [ToRoomExcl "project_p1" (UserLeftProject (UserBrief "u2" "bob") 7)] ∧
    0%nat ∈ members (srv_conns srv) "project_p1" ∧
    Forall (λ a, ∀ room u ts, a ≠ ToRoomExcl room (UserLeftProject u ts)) acts ∧
    out = [(0%nat, UserLeftWhiteboard (UserBrief "u2" "bob"))].
Proof.
  eexists _, _, _. split; [vm_compute; reflexivity|].
  split; [apply list_elem_of_further, list_elem_of_here|].
  split; [reflexivity|]. split.
  - apply elem_of_members. exists (joined 0%nat alice). split; [reflexivity|].
    vm_compute. set_solver.
  - split; [|reflexivity]. repeat constructor; intros ???; discriminate.
Qed.

(** C6, refuted: the edit of a deleted message is accepted and replaces its
    content. *)
Lemma edit_of_deleted_message_applies :
  messages chat_with_deleted = [gone] ∧
  m_isDeleted gone = true ∧
  m_content gone = "hello" ∧
  updateMessage chat_with_deleted (m_id gone) rewrite_content 9 ≠ None ∧
  ∃ c' m',
    updateMessage chat_with_deleted (m_id gone) rewrite_content 9 = Some c' ∧
    messages c' = [m'] ∧
    m_isDeleted m' = true ∧
    m_content m' = "rewritten" ∧
    m_content m' ≠ m_content gone.
Proof.
  split; [reflexivity|]. split; [reflexivity|]. split; [reflexivity|].
  split; [discriminate|].
  eexists _, _. split; [reflexivity|]. split; [reflexivity|].
  split; [reflexivity|]. split; [reflexivity|]. discriminate.
Qed.

(** C7, refuted: two adds carrying the same client-generated id leave two
    elements with that id in the stored whiteboard. *)
Lemma duplicate_element_id :
  ∃ w,
    whiteboards (srv_db (run jwt oid srv
      [InEvent 0 (WhiteboardElementAdd (Some "w1") (Some (rect "dup"))) 5 "r";
       InEvent 1 (WhiteboardElementAdd (Some "w1") (Some (rect "dup"))) 6 "s"]))
      !! "w1" = Some w ∧
    e_id <$> elements w = [Some "e1"; Some "dup"; Some "dup"] ∧
    ¬ NoDup (e_id <$> elements w).
Proof.
  eexists. split; [vm_compute; reflexivity|]. split; [reflexivity|].
  simpl. intros H. apply NoDup_cons in H as [_ H]. apply NoDup_cons in H as [H _].
  apply H. by apply list_elem_of_singleton.
Qed.

(** C10, refuted: an id that is not a well-formed document id resolves to no
    whiteboard either; the connection joins its room and records it, and the
    sender is sent an [error] event. *)
Lemma join_malformed_whiteboard_id_reports_error :
  "not-an-object-id" ≠ "" ∧
  whiteboards (srv_db srv) !! "not-an-object-id" = None ∧
  findById oid (whiteboards (srv_db srv)) "not-an-object-id" = None ∧
  ∃ srv' s',
    receive oid srv 0 (JoinWhiteboard (Some "not-an-object-id")) 7 "r"
    = Some (srv',
            [ConsoleError "Error joining whiteboard:" "CastError";
             EmitSelf (EvError "Failed to join whiteboard")],
            [(0%nat, EvError "Failed to join whiteboard")]) ∧
    srv_conns srv' !! 0%nat = Some s' ∧
    s_whiteboardId s' = Some "not-an-object-id" ∧
    "whiteboard_not-an-object-id" ∈ s_rooms s' ∧
    srv_db srv' = srv_db srv.
Proof.
  split; [discriminate|]. split; [reflexivity|]. split; [reflexivity|].
  eexists _, _. split; [vm_compute; reflexivity|].
  split; [vm_compute; reflexivity|]. split; [reflexivity|].
  split; [|reflexivity]. vm_compute. set_solver.
Qed.

(** An event without payload at the three kinds of listener: leave-project
    lets the TypeError out, join-project catches it and reports a failure to
    the sender, chat-typing-start catches it and only logs. *)
Lemma payloadless_events :
  uncaught oid srv 0 (NoPayload OnLeaveProject) 7 "r" = Some "TypeError" ∧
  uncaught oid srv 0 (NoPayload OnUserPresenceUpdate) 7 "r" = Some "TypeError" ∧
  receive oid srv 0 (NoPayload OnLeaveProject) 7 "r" = Some (srv, [], []) ∧
  uncaught oid srv 0 (NoPayload OnJoinProject) 7 "r" = None ∧
  receive oid srv 0 (NoPayload OnJoinProject) 7 "r"
  = Some (srv,
          [ConsoleError "Error joining project:" "TypeError";
           EmitSelf (EvError "Failed to join project")],
          [(0%nat, EvError "Failed to join project")]) ∧
  uncaught oid srv 0 (NoPayload OnChatTypingStart) 7 "r" = None ∧
  receive oid srv 0 (NoPayload OnChatTypingStart) 7 "r"
  = Some (srv, [ConsoleError "Error updating typing status:" "TypeError"], []).
Proof. repeat split; vm_compute; reflexivity. Qed.


(** ** Instances of the further properties *)

Import Demo2.

Lemma errors_reach_only_the_sender_witness :
  (1%nat, EvError "Project ID is required")
  ∉ [(0%nat, EvError "Project ID is required")].
Proof.
  intros H.
  assert (1%nat = 0%nat) as Hne; [|discriminate Hne].
  eapply (proj1 (errors_reach_only_the_sender oid srv 0%nat)
            (JoinProject None) 7%nat "r" srv
            [EmitSelf (EvError "Project ID is required")]); [|exact H].
  vm_compute. reflexivity.
Defined.

Lemma only_leave_project_leaves_a_room_witness :
  (∃ s', srv_conns srv2 !! 0%nat = Some s' ∧ "chat_c1" ∈ s_rooms s') ∨
  (∃ projectId, JoinChat None = LeaveProject (Some projectId) ∧
                "chat_c1" = project_room projectId).
Proof.
  apply (only_leave_project_leaves_a_room oid srv2 0%nat (joined 0%nat alice)
           (JoinChat None) 7%nat "r" srv2
           [EmitSelf (EvError "Chat ID is required")]
           [(0%nat, EvError "Chat ID is required")]).
  - reflexivity.
  - vm_compute. reflexivity.
  - vm_compute. set_solver.
Defined.

Lemma join_project_again_witness :
  ∃ srv1 out1 out2,
    receive oid srv2 1 (JoinProject (Some "p1")) 7 "r"
    = Some (srv1, [ToRoomExcl "project_p1" (UserJoinedProject (card bob) 7)], out1) ∧
    receive oid srv1 1 (JoinProject (Some "p1")) 8 "s"
    = Some (srv1, [ToRoomExcl "project_p1" (UserJoinedProject (card bob) 8)], out2).
Proof.
  apply (join_project_again oid srv2 1%nat (new_socket 1%nat bob) "p1" 7%nat "r" 8%nat "s").
  - reflexivity.
  - discriminate.
Defined.

Lemma leave_project_not_current_witness :
  receive oid srv2 1 (LeaveProject (Some "p1")) 7 "r" = Some (srv2, [], []).
Proof.
  apply (leave_project_not_current oid srv2 1%nat (new_socket 1%nat bob) "p1" 7%nat "r").
  - reflexivity.
  - discriminate.
Defined.

Lemma join_then_leave_project_witness :
  ∃ srv1 out1 srv2' out2 s2,
    receive oid srv2 1 (JoinProject (Some "p1")) 7 "r"
    = Some (srv1, [ToRoomExcl "project_p1" (UserJoinedProject (card bob) 7)], out1) ∧
    receive oid srv1 1 (LeaveProject (Some "p1")) 8 "s"
    = Some (srv2', [ToRoomExcl "project_p1" (UserLeftProject (brief bob) 8)], out2) ∧
    srv_conns srv2' !! 1%nat = Some s2 ∧
    s_projectId s2 = None.
Proof.
  destruct (join_then_leave_project oid srv2 1%nat (new_socket 1%nat bob) "p1"
              7%nat "r" 8%nat "s")
    as (srv1 & out1 & srv2' & out2 & s2 & H1 & H2 & H3 & H4 & _).
  - reflexivity.
  - discriminate.
  - exists srv1, out1, srv2', out2, s2. repeat split; assumption.
Defined.

Lemma superseded_project_stays_joined_witness :
  ∃ srv1 acts1 out1 srv2' acts2 out2 s2,
    receive oid srv2 1 (JoinProject (Some "p1")) 7 "r" = Some (srv1, acts1, out1) ∧
    receive oid srv1 1 (JoinProject (Some "p2")) 7 "r" = Some (srv2', acts2, out2) ∧
    receive oid srv2' 1 (LeaveProject (Some "p1")) 7 "r" = Some (srv2', [], []) ∧
    srv_conns srv2' !! 1%nat = Some s2 ∧
    "project_p1" ∈ s_rooms s2 ∧
    s_projectId s2 = Some "p2".
Proof.
  apply (superseded_project_stays_joined oid srv2 1%nat (new_socket 1%nat bob)
           "p1" "p2" 7%nat "r").
  - reflexivity.
  - discriminate.
  - discriminate.
  - discriminate.
Defined.

Lemma presence_entries_stay_unique_witness :
  NoDup (col_user <$> collaborators
           (updateCollaboratorCursor board "u2" (3, 4)%Z 9)).
Proof.
  apply (presence_entries_stay_unique board "u2" (3, 4)%Z 9%nat).
  apply NoDup_nil_2.
Defined.

Lemma cursor_then_remove_witness :
  removeCollaborator (updateCollaboratorCursor board "u2" (3, 4)%Z 9) "u2" = board.
Proof.
  apply (cursor_then_remove board "u2" (3, 4)%Z 9%nat).
  apply not_elem_of_nil.
Defined.

Lemma add_then_update_witness :
  ∃ id w',
    assigned_id (rect "e2") 7 "r" = Some id ∧
    updateElement (addElement board (rect "e2") 7 "r") id (rect "e3") 8 = Some w' ∧
    length (elements w') = 2%nat.
Proof.
  destruct (add_then_update board (rect "e2") 7%nat "r" (rect "e3") 8%nat)
    as (id & w' & H1 & H2 & H3 & _).
  exists id, w'. repeat split; assumption.
Defined.

Lemma add_then_remove_witness :
  elements (removeElement (addElement board (rect "e2") 7 "r") "e2") = elements board.
Proof.
  destruct (add_then_remove board (rect "e2") 7%nat "r") as (id & Hid & _ & Hback).
  injection Hid as <-. apply Hback.
  intros Hin. apply list_elem_of_singleton in Hin. discriminate Hin.
Defined.

Lemma deleteMessage_is_soft_witness :
  ∃ c', deleteMessage room_chat "m1" 9 = Some c' ∧
        m_content <$> messages c' = ["hello"] ∧
        is_Some (deleteMessage c' "m1" 10).
Proof.
  destruct (deleteMessage_is_soft room_chat "m1" 9%nat) as [_ Hsoft].
  destruct (Hsoft (mkChat (participants room_chat) [mark_deleted hello 9] 1))
    as (_ & Hcontent & _ & _ & Hagain).
  - reflexivity.
  - eexists. split; [reflexivity|]. split; [exact Hcontent|exact (Hagain 10%nat)].
Defined.

Lemma lastMessage_cases_witness :
  hello ∈ messages room_chat ∧ m_isDeleted hello = false.
Proof.
  apply (proj2 (proj2 (lastMessage_cases room_chat)) hello). reflexivity.
Defined.

Lemma unreadCount_cases_witness :
  unreadCount
    (addMessage lounge (mkMessageData None "hi" "text" [] "u1") 7 "r") "u2"
  = S (unreadCount lounge "u2").
Proof.
  destruct (unreadCount_cases lounge "u2") as (_ & _ & Hother & _).
  apply (Hother (mkMessageData None "hi" "text" [] "u1") 7%nat "r" 1%nat
           (mkParticipant "u2" "member" 0 false)).
  - discriminate.
  - reflexivity.
  - simpl. lia.
Defined.

Lemma read_receipt_recorded_once_witness :
  ∃ c1 c2,
    markAsRead lounge "u2" (Some "m1") 7 = Some c1 ∧
    markAsRead c1 "u2" (Some "m1") 8 = Some c2 ∧
    messages c2 = messages c1.
Proof.
  destruct (read_receipt_recorded_once lounge "u2" "m1" 7%nat
              (mkChat [mkParticipant "u1" "member" 0 false;
                       mkParticipant "u2" "member" 7 false]
                      [push_read hello "u2" 7] 1))
    as [_ Hagain].
  - discriminate.
  - reflexivity.
  - destruct (Hagain 8%nat) as (c2 & H2 & Hsame).
    eexists _, c2. split; [reflexivity|]. split; [exact H2|exact Hsame].
Defined.

Lemma reaction_add_then_remove_witness :
  ∃ msgs',
    addReaction thread "m1" "u1" "+1" 9 = Some msgs' ∧
    addReaction msgs' "m1" "u1" "+1" 10 = None ∧
    removeReaction msgs' "m1" "u1" "+1" = Some thread.
Proof.
  destruct (reaction_add_then_remove thread "m1" "u1" "+1" 9%nat) as [_ Hadd].
  destruct (Hadd [ {| rm_message := hello;
                      rm_reactions := [thumbs; mkReaction "u1" "+1" 9] |} ])
    as [Hagain Hback].
  - reflexivity.
  - eexists. split; [reflexivity|]. split; [exact (Hagain 10%nat)|exact Hback].
Defined.

Lemma hasAccess_follows_the_hierarchy_witness :
  hasAccess site "u2" (Some "viewer") = true.
Proof.
  destruct (hasAccess_follows_the_hierarchy site) as (_ & _ & _ & Hlower).
  apply (Hlower "u2" "member" "viewer" 2%nat 1%nat).
  - reflexivity.
  - reflexivity.
  - lia.
  - reflexivity.
Defined.

Lemma addMember_is_an_upsert_witness :
  hasAccess (addMember site "u3" (Some "admin") 9) "u3" (Some "admin")
  = role_suffices "admin" (Some "admin").
Proof.
  destruct (addMember_is_an_upsert site "u3" (Some "admin") 9%nat) as [Hgrant _].
  apply (Hgrant (Some "admin")). discriminate.
Defined.

Lemma removeMember_revokes_witness :
  hasAccess (removeMember site "u2") "u3" (Some "viewer")
  = hasAccess site "u3" (Some "viewer").
Proof.
  destruct (removeMember_revokes site "u2") as (_ & Hother & _).
  apply (Hother "u3" (Some "viewer")). discriminate.
Defined.

Lemma protect_agrees_with_socket_auth_witness :
  auth_middleware jwt oid db 5
    {| auth_token := None; authorization := Some "Bearer tok-alice" |}
  = Accepted alice.
Proof.
  destruct (protect_agrees_with_socket_auth jwt oid db 5%nat) as [Hiff _].
  apply (Hiff "Bearer tok-alice" alice). reflexivity.
Defined.

Lemma optionalAuth_agrees_with_protect_witness :
  protect jwt oid db 5 (Some "Bearer tok-bob") = Next bob.
Proof.
  apply (optionalAuth_agrees_with_protect jwt oid db 5%nat (Some "Bearer tok-bob") bob).
  reflexivity.
Defined.

Lemma authorize_is_monotone_witness :
  requireMember (Some (mkRequester alice "admin")) = Next tt.
Proof.
  destruct (authorize_is_monotone ["admin"] ["admin"; "member"]
              (Some (mkRequester alice "admin")))
    as (_ & _ & _ & Hadmin & _).
  apply Hadmin. reflexivity.
Defined.

Lemma projectAccess_guards_witness :
  projectAccess oid (Some "viewer") projects (Some "p1") "u2" = Next site.
Proof.
  destruct (projectAccess_guards oid (Some "member") projects (Some "p1") "u2")
    as (_ & _ & Hlower).
  apply (Hlower "member" "viewer" 2%nat 1%nat site).
  - reflexivity.
  - reflexivity.
  - lia.
  - reflexivity.
Defined.

Lemma chat_message_from_outside_the_room_witness :
  ∃ srv' acts out saved message,
    receive oid srv2 1 (ChatMessage (Some "c1") (Some "psst") None None) 7 "r"
    = Some (srv', acts, out) ∧
    chats (srv_db srv') !! "c1" = Some saved ∧
    messages saved = [hello; message] ∧
    (0%nat, ChatMessageReceived message (card bob)) ∈ out ∧
    (∀ e, (1%nat, e) ∉ out).
Proof.
  destruct (chat_message_from_outside_the_room oid srv2 1%nat (new_socket 1%nat bob)
              "c1" "psst" None None 7%nat "r" room_chat)
    as (srv' & acts & out & saved & message & H1 & H2 & H3 & _ & _ & H6 & H7).
  - reflexivity.
  - vm_compute. set_solver.
  - discriminate.
  - discriminate.
  - reflexivity.
  - reflexivity.
  - exists srv', acts, out, saved, message.
    split; [exact H1|]. split; [exact H2|]. split; [exact H3|].
    split; [|exact H7]. apply H6. apply elem_of_members.
    exists (joined 0%nat alice). split; [reflexivity|]. vm_compute. set_solver.
Defined.

Lemma events_of_a_non_participant_are_dropped_witness :
  receive oid srv2 1 (ChatTypingStart (Some "c1")) 7 "r"
  = Some (srv2, [ConsoleError "Error updating typing status:"
                   "User not found in chat"], []).
Proof.
  apply (events_of_a_non_participant_are_dropped oid srv2 1%nat (new_socket 1%nat bob)
           "c1" room_chat 7%nat "r").
  - reflexivity.
  - discriminate.
  - reflexivity.
  - simpl. intros Hin. apply list_elem_of_singleton in Hin. discriminate Hin.
Defined.

Lemma join_chat_sends_history_witness :
  ∃ srv' out history s',
    receive oid srv2 1 (JoinChat (Some "c1")) 7 "r"
    = Some (srv',
            [EmitSelf (ChatHistory room_chat history);
             ToRoomExcl "chat_c1" (UserJoinedChat (card bob))], out) ∧
    srv_db srv' = db ∧
    srv_conns srv' !! 1%nat = Some s' ∧
    s_chatId s' = Some "c1".
Proof.
  destruct (join_chat_sends_history oid srv2 1%nat (new_socket 1%nat bob) "c1" room_chat
              7%nat "r")
    as (srv' & out & history & s' & H1 & H2 & _ & H4 & _ & H6 & _).
  - reflexivity.
  - discriminate.
  - reflexivity.
  - exists srv', out, history, s'. repeat split; assumption.
Defined.

Lemma join_whiteboard_records_presence_witness :
  ∃ srv' out w',
    receive oid srv2 1 (JoinWhiteboard (Some "w1")) 7 "r"
    = Some (srv',
            [EmitSelf (WhiteboardState w' (collaborators w'));
             ToRoomExcl "whiteboard_w1" (UserJoinedWhiteboard (card bob))], out) ∧
    whiteboards (srv_db srv') !! "w1" = Some w' ∧
    elements w' = elements board.
Proof.
  destruct (join_whiteboard_records_presence oid srv2 1%nat (new_socket 1%nat bob) "w1"
              board 7%nat "r")
    as (srv' & out & w' & H1 & H2 & H3 & _).
  - reflexivity.
  - discriminate.
  - reflexivity.
  - reflexivity.
  - exists srv', out, w'. repeat split; assumption.
Defined.

Lemma disconnect_clears_presence_witness :
  ∃ srv' rest out w',
    disconnect oid srv 0 7
    = Some (srv',
            ToRoomExcl "whiteboard_w1" (UserLeftWhiteboard (brief alice)) :: rest,
            out) ∧
    srv_conns srv' !! 0%nat = None ∧
    whiteboards (srv_db srv') !! "w1" = Some w'.
Proof.
  destruct (disconnect_clears_presence oid srv 0%nat (joined 0%nat alice) "w1" board 7%nat)
    as (srv' & rest & out & w' & H1 & H2 & _ & H4 & _).
  - reflexivity.
  - reflexivity.
  - discriminate.
  - reflexivity.
  - reflexivity.
  - exists srv', rest, out, w'. repeat split; assumption.
Defined.

Lemma connect_registers_a_fresh_connection_witness :
  ∃ cid srv',
    connect jwt oid srv 5 (mkHandshake (Some "tok-bob") None) = (srv', Connected cid) ∧
    srv_conns srv !! cid = None ∧
    s_user <$> srv_conns srv' !! cid = Some bob.
Proof.
  destruct (connect_registers_a_fresh_connection jwt oid srv 5%nat
              (mkHandshake (Some "tok-bob") None) "tok-bob" "u2" bob)
    as (cid & srv' & H1 & H2 & H3 & _).
  - reflexivity.
  - discriminate.
  - reflexivity.
  - reflexivity.
  - reflexivity.
  - reflexivity.
  - exists cid, srv'. split; [exact H1|]. split; [exact H2|]. by rewrite H3.
Defined.

End Concrete.
